(** * akwam-site backend: read-through cache handlers and validated models

    A shallow embedding of [backend/src/main.py] (the FastAPI handlers that
    read through a Redis cache in front of the scraper functions) and of the
    pydantic models of [backend/src/models.py] that carry validators
    ([MovieBase], [EpisodeBase], [VideoSource]).

    Conventions of the embedding.
    - Python [str] is [string], read as a sequence of ASCII characters;
      Python [int] is [Z]; [Optional[T]] is [option T].
    - Loosely typed data that travels through [json.dumps] / [json.loads]
      is a value of [Json.json]: [None], booleans, integers, strings, lists
      and string-keyed dicts (floats are not covered).
    - The Redis server is a finite map from keys to a value and the instant
      at which the value expires; the clock is part of the state.
    - A handler is a computation in a state-and-exception monad over that
      state; the scraper functions are an interface ([Main.Scraper]) whose
      answers may depend on the calls made so far. *)

From Stdlib Require Import ZArith Ascii String List Bool Lia QArith.
From Stdlib Require Import DecimalString DecimalZ DecimalPos DecimalN.
From stdpp Require Import base option gmap strings list.

#[local] Open Scope string_scope.
#[local] Open Scope Z_scope.

(* ===================================================================== *)
(** ** Python primitives used by the two source files *)
(* ===================================================================== *)

Module Py.

(** [str(n)] for an [int]: decimal digits, a leading minus sign for
    negative numbers, no leading zeros. *)
Definition str_of_int (z : Z) : string :=
  NilZero.string_of_int (Z.to_int z).

(** [str(x)] for an [Optional[int]], as an f-string formats it. *)
Definition str_of_opt_int (o : option Z) : string :=
  match o with
  | Some z => str_of_int z
  | None => "None"
  end.

(** [c.isspace()] on ASCII: TAB, LF, VT, FF, CR, FS, GS, RS, US, space. *)
Definition isspace (c : ascii) : bool :=
  let n := nat_of_ascii c in
  ((9 <=? n)%nat && (n <=? 13)%nat) || ((28 <=? n)%nat && (n <=? 32)%nat).

Fixpoint lstrip (s : string) : string :=
  match s with
  | EmptyString => EmptyString
  | String c r => if isspace c then lstrip r else s
  end.

Fixpoint rstrip (s : string) : string :=
  match s with
  | EmptyString => EmptyString
  | String c r =>
      match rstrip r with
      | EmptyString => if isspace c then EmptyString else String c EmptyString
      | r' => String c r'
      end
  end.

(** [s.strip()] *)
Definition strip (s : string) : string := rstrip (lstrip s).

Definition lower_char (c : ascii) : ascii :=
  let n := nat_of_ascii c in
  if ((65 <=? n)%nat && (n <=? 90)%nat) then ascii_of_nat (n + 32) else c.

(** [s.lower()] on ASCII *)
Fixpoint lower (s : string) : string :=
  match s with
  | EmptyString => EmptyString
  | String c r => String (lower_char c) (lower r)
  end.

(** [s.startswith(p)] *)
Definition startswith (s p : string) : bool := String.prefix p s.

(** [s.startswith((p1, p2, ...))] with a tuple of prefixes *)
Definition startswith_any (s : string) (ps : list string) : bool :=
  existsb (startswith s) ps.

(** Truth value of a [str]: the empty string is false. *)
Definition str_truthy (s : string) : bool :=
  match s with
  | EmptyString => false
  | String _ _ => true
  end.

(** Truth value of an [Optional[str]]. *)
Definition opt_str_truthy (o : option string) : bool :=
  match o with
  | Some s => str_truthy s
  | None => false
  end.

(** Truth value of an [int]: zero is false. *)
Definition int_truthy (z : Z) : bool := negb (z =? 0).

(** [c in s] for a character [c]. *)
Fixpoint contains (c : ascii) (s : string) : bool :=
  match s with
  | EmptyString => false
  | String a r => Ascii.eqb a c || contains c r
  end.

(** The last character of [String c r]. *)
Fixpoint last_char (c : ascii) (r : string) : ascii :=
  match r with
  | EmptyString => c
  | String a r' => last_char a r'
  end.

(** [s] neither begins nor ends with whitespace. *)
Definition trimmed (s : string) : bool :=
  match s with
  | EmptyString => true
  | String c r => negb (isspace c) && negb (isspace (last_char c r))
  end.

(** Every character of [s] is whitespace. *)
Fixpoint blank (s : string) : bool :=
  match s with
  | EmptyString => true
  | String c r => isspace c && blank r
  end.

End Py.

(* ===================================================================== *)
(** ** JSON values, [json.dumps] and [json.loads] *)
(* ===================================================================== *)

(** The one-character string made of a double quote (character 34). *)
Abbreviation dq := (String "034" EmptyString).

Module Json.

#[local] Unset Elimination Schemes.

(** A dict is the list of its items in insertion order. *)
Inductive json : Type :=
| JNull
| JBool (b : bool)
| JInt (z : Z)
| JStr (s : string)
| JList (l : list json)
| JDict (m : list (string * json)).

#[local] Set Elimination Schemes.

(** Python truth value of a value: [None], [False], [0], the empty
    string, [[]] and [{}] are false, everything else is true. *)
Definition truthy (v : json) : bool :=
  match v with
  | JNull => false
  | JBool b => b
  | JInt z => Py.int_truthy z
  | JStr s => Py.str_truthy s
  | JList l => match l with [] => false | _ :: _ => true end
  | JDict m => match m with [] => false | _ :: _ => true end
  end.

(** *** Encoder *)

Definition hex_digit (n : nat) : ascii :=
  if (n <? 10)%nat then ascii_of_nat (48 + n) else ascii_of_nat (87 + n).

(** One character inside a JSON string, as [json.dumps] escapes it with
    the default [ensure_ascii=True]. *)
Definition escape_char (c : ascii) : string :=
  let n := nat_of_ascii c in
  if Ascii.eqb c "034" then String "\" dq
  else if Ascii.eqb c "\" then "\\"
  else if (n =? 8)%nat then "\b"
  else if (n =? 9)%nat then "\t"
  else if (n =? 10)%nat then "\n"
  else if (n =? 12)%nat then "\f"
  else if (n =? 13)%nat then "\r"
  else if ((32 <=? n)%nat && (n <=? 126)%nat) then String c EmptyString
  else "\u00" ++ String (hex_digit (n / 16))
                   (String (hex_digit (n mod 16)) EmptyString).

Fixpoint escape (s : string) : string :=
  match s with
  | EmptyString => EmptyString
  | String c r => escape_char c ++ escape r
  end.

Definition quote (s : string) : string := dq ++ escape s ++ dq.

(** [", ".join(items)] *)
Fixpoint join (items : list string) : string :=
  match items with
  | [] => EmptyString
  | [x] => x
  | x :: rest => x ++ ", " ++ join rest
  end.

(** [json.dumps(v)] with the default separators. *)
Fixpoint dumps (v : json) : string :=
  match v with
  | JNull => "null"
  | JBool true => "true"
  | JBool false => "false"
  | JInt z => Py.str_of_int z
  | JStr s => quote s
  | JList l => "[" ++ join (map dumps l) ++ "]"
  | JDict m =>
      "{"
      ++ join (map (fun kv => quote (fst kv) ++ ": " ++ dumps (snd kv)) m)
      ++ "}"
  end.

(** *** Decoder *)

Definition is_ws (c : ascii) : bool :=
  let n := nat_of_ascii c in
  (n =? 32)%nat || (n =? 9)%nat || (n =? 10)%nat || (n =? 13)%nat.

Fixpoint skip_ws (s : string) : string :=
  match s with
  | EmptyString => EmptyString
  | String c r => if is_ws c then skip_ws r else s
  end.

Fixpoint strip_prefix (p s : string) : option string :=
  match p with
  | EmptyString => Some s
  | String a p' =>
      match s with
      | EmptyString => None
      | String b s' => if Ascii.eqb a b then strip_prefix p' s' else None
      end
  end.

Definition hex_value (c : ascii) : option nat :=
  let n := nat_of_ascii c in
  if ((48 <=? n)%nat && (n <=? 57)%nat) then Some (n - 48)%nat
  else if ((97 <=? n)%nat && (n <=? 102)%nat) then Some (n - 87)%nat
  else if ((65 <=? n)%nat && (n <=? 70)%nat) then Some (n - 55)%nat
  else None.

(** The character named by a one-letter escape. *)
Definition unescape (e : ascii) : option ascii :=
  if Ascii.eqb e "034" then Some "034"%char
  else if Ascii.eqb e "\" then Some "\"%char
  else if Ascii.eqb e "/" then Some "/"%char
  else if Ascii.eqb e "b" then Some (ascii_of_nat 8)
  else if Ascii.eqb e "t" then Some (ascii_of_nat 9)
  else if Ascii.eqb e "n" then Some (ascii_of_nat 10)
  else if Ascii.eqb e "f" then Some (ascii_of_nat 12)
  else if Ascii.eqb e "r" then Some (ascii_of_nat 13)
  else None.

(** The character named by the four hex digits of a [\uXXXX] escape;
    only code points below 256 are representable. *)
Definition unescape_u (h1 h2 h3 h4 : ascii) : option ascii :=
  match hex_value h1, hex_value h2, hex_value h3, hex_value h4 with
  | Some 0%nat, Some 0%nat, Some a, Some b => Some (ascii_of_nat (16 * a + b))
  | _, _, _, _ => None
  end.

(** The body of a string, after the opening quote, up to and including
    the closing quote; returns the decoded string and the rest. *)
Fixpoint parse_str (s : string) : option (string * string) :=
  match s with
  | EmptyString => None
  | String c r =>
      if Ascii.eqb c "034" then Some (EmptyString, r)
      else if Ascii.eqb c "\" then
        match r with
        | EmptyString => None
        | String e r1 =>
            if Ascii.eqb e "u" then
              match r1 with
              | String h1 (String h2 (String h3 (String h4 r2))) =>
                  match unescape_u h1 h2 h3 h4 with
                  | Some a =>
                      match parse_str r2 with
                      | Some (t, r3) => Some (String a t, r3)
                      | None => None
                      end
                  | None => None
                  end
              | _ => None
              end
            else
              match unescape e with
              | Some a =>
                  match parse_str r1 with
                  | Some (t, r2) => Some (String a t, r2)
                  | None => None
                  end
              | None => None
              end
        end
      else if (nat_of_ascii c <? 32)%nat then None
      else
        match parse_str r with
        | Some (t, r1) => Some (String c t, r1)
        | None => None
        end
  end.

Definition digit_of (c : ascii) : option (Decimal.uint -> Decimal.uint) :=
  match (nat_of_ascii c - 48)%nat with
  | 0%nat => if Ascii.eqb c "0" then Some Decimal.D0 else None
  | 1%nat => Some Decimal.D1
  | 2%nat => Some Decimal.D2
  | 3%nat => Some Decimal.D3
  | 4%nat => Some Decimal.D4
  | 5%nat => Some Decimal.D5
  | 6%nat => Some Decimal.D6
  | 7%nat => Some Decimal.D7
  | 8%nat => Some Decimal.D8
  | 9%nat => Some Decimal.D9
  | _ => None
  end.

(** The longest run of decimal digits at the front of [s]. *)
Fixpoint parse_digits (s : string) : Decimal.uint * string :=
  match s with
  | EmptyString => (Decimal.Nil, EmptyString)
  | String c r =>
      match digit_of c with
      | Some d => let '(ds, r') := parse_digits r in (d ds, r')
      | None => (Decimal.Nil, s)
      end
  end.

Definition parse_int (s : string) : option (Z * string) :=
  match s with
  | EmptyString => None
  | String c r =>
      if Ascii.eqb c "-" then
        match parse_digits r with
        | (Decimal.Nil, _) => None
        | (ds, r') => Some (Z.of_int (Decimal.Neg ds), r')
        end
      else
        match parse_digits s with
        | (Decimal.Nil, _) => None
        | (ds, r') => Some (Z.of_int (Decimal.Pos ds), r')
        end
  end.

(** A value at the front of [s] (after optional whitespace); [fuel]
    bounds the nesting and the number of items. *)
Fixpoint parse_value (fuel : nat) (s : string) : option (json * string) :=
  match fuel with
  | O => None
  | S n =>
      match skip_ws s with
      | EmptyString => None
      | String c r =>
          if Ascii.eqb c "n" then
            match strip_prefix "ull" r with
            | Some r' => Some (JNull, r')
            | None => None
            end
          else if Ascii.eqb c "t" then
            match strip_prefix "rue" r with
            | Some r' => Some (JBool true, r')
            | None => None
            end
          else if Ascii.eqb c "f" then
            match strip_prefix "alse" r with
            | Some r' => Some (JBool false, r')
            | None => None
            end
          else if Ascii.eqb c "034" then
            match parse_str r with
            | Some (k, r') => Some (JStr k, r')
            | None => None
            end
          else if Ascii.eqb c "[" then
            match strip_prefix "]" (skip_ws r) with
            | Some r' => Some (JList [], r')
            | None =>
                match parse_items n r with
                | Some (l, r') => Some (JList l, r')
                | None => None
                end
            end
          else if Ascii.eqb c "{" then
            match strip_prefix "}" (skip_ws r) with
            | Some r' => Some (JDict [], r')
            | None =>
                match parse_members n r with
                | Some (m, r') => Some (JDict m, r')
                | None => None
                end
            end
          else
            match parse_int (String c r) with
            | Some (z, r') => Some (JInt z, r')
            | None => None
            end
      end
  end
with parse_items (fuel : nat) (s : string) : option (list json * string) :=
  match fuel with
  | O => None
  | S n =>
      match parse_value n s with
      | Some (v, r) =>
          match skip_ws r with
          | EmptyString => None
          | String c r' =>
              if Ascii.eqb c "," then
                match parse_items n r' with
                | Some (l, r'') => Some (v :: l, r'')
                | None => None
                end
              else if Ascii.eqb c "]" then Some ([v], r')
              else None
          end
      | None => None
      end
  end
with parse_members (fuel : nat) (s : string)
    : option (list (string * json) * string) :=
  match fuel with
  | O => None
  | S n =>
      match strip_prefix dq (skip_ws s) with
      | Some r =>
          match parse_str r with
          | Some (k, r1) =>
              match strip_prefix ":" (skip_ws r1) with
              | Some r2 =>
                  match parse_value n r2 with
                  | Some (v, r3) =>
                      match skip_ws r3 with
                      | EmptyString => None
                      | String c r4 =>
                          if Ascii.eqb c "," then
                            match parse_members n r4 with
                            | Some (m, r5) => Some ((k, v) :: m, r5)
                            | None => None
                            end
                          else if Ascii.eqb c "}" then Some ([(k, v)], r4)
                          else None
                      end
                  | None => None
                  end
              | None => None
              end
          | None => None
          end
      | None => None
      end
  end.

(** [json.loads(s)]: one value surrounded by optional whitespace, or
    [None] where Python raises [JSONDecodeError]. *)
Definition loads (s : string) : option json :=
  match parse_value (S (String.length s)) s with
  | Some (v, r) =>
      match skip_ws r with
      | EmptyString => Some v
      | String _ _ => None
      end
  | None => None
  end.

(** *** Notions used to reason about the decoder *)

(** The text of one dict member. *)
Definition member (kv : string * json) : string :=
  quote (fst kv) ++ ": " ++ dumps (snd kv).

(** The text after a number never begins with a digit. *)
Definition no_digit_head (r : string) : Prop :=
  match r with
  | EmptyString => True
  | String c _ => digit_of c = None
  end.

(** What may follow a value: the end of the text, or the separator or
    closing bracket of the enclosing list or dict. *)
Definition delim (r : string) : Prop :=
  match r with
  | EmptyString => True
  | String c _ => c = ","%char \/ c = "]"%char \/ c = "}"%char
  end.

(** The first character of an encoded value: not whitespace and not a
    closing bracket. *)
Definition value_head (s : string) : Prop :=
  match s with
  | EmptyString => False
  | String c _ =>
      is_ws c = false /\ Ascii.eqb c "]" = false /\ Ascii.eqb c "}" = false
  end.

(** The decoder reads back an encoded value when the fuel exceeds the
    length of the text. *)
Definition reads_back (v : json) : Prop :=
  forall fuel r,
    (String.length (dumps v) < fuel)%nat -> delim r ->
    parse_value fuel (dumps v ++ r) = Some (v, r).

End Json.

Import Json.

(* ===================================================================== *)
(** ** The Redis server behind [redis_client] *)
(* ===================================================================== *)

Module Redis.

(** A stored string and the instant (in seconds) at which it expires. *)
Record entry : Type := Entry { value : string; expires_at : Z }.

(** [GET key] at instant [now]: an expired key is gone. *)
Definition get (now : Z) (db : gmap string entry) (key : string)
    : option string :=
  match db !! key with
  | Some e => if now <? expires_at e then Some (value e) else None
  | None => None
  end.

(** [SETEX key seconds val] at instant [now]. *)
Definition setex (now : Z) (key : string) (seconds : Z) (val : string)
    (db : gmap string entry) : gmap string entry :=
  <[key := Entry val (now + seconds)]> db.

End Redis.

(* ===================================================================== *)
(** ** [backend/src/main.py] *)
(* ===================================================================== *)

Module Main.

(** [class SearchRequest(BaseModel)]; [page] is [None] when the body gives
    it as null (a body that leaves it out gets the default 1). *)
Record SearchRequest : Type :=
  { query : string; page : option Z }.

(** A call of one of the scraper coroutines, with its arguments. *)
Inductive call : Type :=
| GetHomeContent (page : Z)
| PerformSearch (query : string) (page : option Z)
| GetMovieInfo (movie_id : string)
| GetSeriesInfo (series_id : string)
| ExtractVideoSources (content_id : string)
| GetCategoryContent (category : string) (page : Z).

Inductive exn : Type :=
| JSONDecodeError
| TypeError
| UpstreamError (reason : string).

Inductive outcome (A : Type) : Type :=
| Return (a : A)
| Raise (e : exn).
Arguments Return {A} a.
Arguments Raise {A} e.

(** The functions that "would be implemented in scraper.py".  What the
    upstream site answers may change from one call to the next, so each
    function also sees the calls made before it. *)
Class Scraper : Type :=
  { get_home_content : Z -> list call -> outcome json;
    perform_search : string -> option Z -> list call -> outcome json;
    get_movie_info : string -> list call -> outcome json;
    get_series_info : string -> list call -> outcome json;
    extract_video_sources : string -> list call -> outcome json;
    get_category_content : string -> Z -> list call -> outcome json }.

(** The state the handlers run in: the Redis database, the clock, and
    the scraper calls made so far (oldest first). *)
Record state : Type :=
  State { redis_db : gmap string Redis.entry;
          clock : Z;
          upstream_calls : list call }.

(** Time passing between two requests. *)
Definition tick (d : Z) (st : state) : state :=
  State (redis_db st) (clock st + d) (upstream_calls st).

Definition M (A : Type) : Type := state -> outcome A * state.

Definition ret {A} (a : A) : M A := fun st => (Return a, st).

Definition raise {A} (e : exn) : M A := fun st => (Raise e, st).

Definition bind {A B} (m : M A) (k : A -> M B) : M B :=
  fun st =>
    match m st with
    | (Return a, st') => k a st'
    | (Raise e, st') => (Raise e, st')
    end.

Declare Scope py_scope.
Delimit Scope py_scope with py.
Notation "'let*' x ':=' m 'in' k" := (bind m (fun x => k))
  (at level 10, x name, m at level 100, k at level 200) : py_scope.
Notation "m ';;' k" := (bind m (fun _ => k))
  (at level 100, k at level 200, right associativity) : py_scope.
#[local] Open Scope py_scope.

(** [redis_client.get(key)] *)
Definition redis_client_get (key : string) : M (option string) :=
  fun st => (Return (Redis.get (clock st) (redis_db st) key), st).

(** [redis_client.setex(key, seconds, val)] *)
Definition redis_client_setex (key : string) (seconds : Z) (val : string)
    : M unit :=
  fun st =>
    (Return tt,
     State (Redis.setex (clock st) key seconds val (redis_db st))
           (clock st) (upstream_calls st)).

(** [json.loads(cached)] on what [redis_client.get] returned. *)
Definition json_loads (cached : option string) : M json :=
  match cached with
  | None => raise TypeError
  | Some s =>
      match Json.loads s with
      | Some v => ret v
      | None => raise JSONDecodeError
      end
  end.

(** [json.dumps(data)] *)
Definition json_dumps (data : json) : string := Json.dumps data.

(** A request to one of the six cached routes of [app]. *)
Inductive request : Type :=
| ApiHome (page : Z)
| ApiSearch (body : SearchRequest)
| ApiMovie (movie_id : string)
| ApiSeries (series_id : string)
| ApiWatch (content_id : string)
| ApiCategory (category : string) (page : Z).

Section Handlers.

Context {scraper : Scraper}.

(** The coroutine a [call] stands for. *)
Definition coroutine (c : call) : list call -> outcome json :=
  match c with
  | GetHomeContent page => get_home_content page
  | PerformSearch query page => perform_search query page
  | GetMovieInfo movie_id => get_movie_info movie_id
  | GetSeriesInfo series_id => get_series_info series_id
  | ExtractVideoSources content_id => extract_video_sources content_id
  | GetCategoryContent category page => get_category_content category page
  end.

(** [await c]: run the scraper coroutine and record the call. *)
Definition await (c : call) : M json :=
  fun st =>
    (coroutine c (upstream_calls st),
     State (redis_db st) (clock st) (upstream_calls st ++ [c])).

(** [GET /api/home] *)
Definition get_home_page (page : Z) : M json :=
  let cache_key := "home_page_" ++ Py.str_of_int page in
  let* cached := redis_client_get cache_key in
  if Py.opt_str_truthy cached then json_loads cached
  else
    let* home_data := await (GetHomeContent page) in
    redis_client_setex cache_key 3600 (json_dumps home_data) ;;
    ret home_data.

(** [POST /api/search] *)
Definition search_content (request : SearchRequest) : M json :=
  let cache_key :=
    "search_" ++ query request ++ "_" ++ Py.str_of_opt_int (page request) in
  let* cached := redis_client_get cache_key in
  if Py.opt_str_truthy cached then json_loads cached
  else
    let* search_results :=
      await (PerformSearch (query request) (page request)) in
    redis_client_setex cache_key 1800 (json_dumps search_results) ;;
    ret search_results.

(** [GET /api/movie/{movie_id}] *)
Definition get_movie_details (movie_id : string) : M json :=
  let cache_key := "movie_" ++ movie_id in
  let* cached := redis_client_get cache_key in
  if Py.opt_str_truthy cached then json_loads cached
  else
    let* movie_data := await (GetMovieInfo movie_id) in
    (if truthy movie_data
     then redis_client_setex cache_key 7200 (json_dumps movie_data)
     else ret tt) ;;
    ret movie_data.

(** [GET /api/series/{series_id}] *)
Definition get_series_details (series_id : string) : M json :=
  let cache_key := "series_" ++ series_id in
  let* cached := redis_client_get cache_key in
  if Py.opt_str_truthy cached then json_loads cached
  else
    let* series_data := await (GetSeriesInfo series_id) in
    (if truthy series_data
     then redis_client_setex cache_key 7200 (json_dumps series_data)
     else ret tt) ;;
    ret series_data.

(** [GET /api/watch/{content_id}] *)
Definition get_video_sources (content_id : string) : M json :=
  let cache_key := "watch_" ++ content_id in
  let* cached := redis_client_get cache_key in
  if Py.opt_str_truthy cached then json_loads cached
  else
    let* sources := await (ExtractVideoSources content_id) in
    (if truthy sources
     then redis_client_setex cache_key 3600 (json_dumps sources)
     else ret tt) ;;
    ret sources.

(** [GET /api/category/{category}] *)
Definition get_category (category : string) (page : Z) : M json :=
  let cache_key :=
    "category_" ++ category ++ "_" ++ Py.str_of_int page in
  let* cached := redis_client_get cache_key in
  if Py.opt_str_truthy cached then json_loads cached
  else
    let* category_data := await (GetCategoryContent category page) in
    redis_client_setex cache_key 3600 (json_dumps category_data) ;;
    ret category_data.

(** The routes of [app]: which handler serves which request. *)
Definition handle (r : request) : M json :=
  match r with
  | ApiHome page => get_home_page page
  | ApiSearch body => search_content body
  | ApiMovie movie_id => get_movie_details movie_id
  | ApiSeries series_id => get_series_details series_id
  | ApiWatch content_id => get_video_sources content_id
  | ApiCategory category page => get_category category page
  end.

End Handlers.

(** The six placeholder bodies at the end of [main.py]. *)
Definition placeholder : Scraper :=
  {| get_home_content := fun _ _ =>
       Return (JDict [("sections", JList []); ("featured", JList [])]);
     perform_search := fun _ _ _ =>
       Return (JDict [("results", JList []); ("total_pages", JInt 0)]);
     get_movie_info := fun _ _ => Return JNull;
     get_series_info := fun _ _ => Return JNull;
     extract_video_sources := fun _ _ => Return (JList []);
     get_category_content := fun _ _ _ =>
       Return (JDict [("items", JList []); ("total_pages", JInt 0)]) |}.

(** A scraper that gives the same answer to every call. *)
Definition always (answer : outcome json) : Scraper :=
  {| get_home_content := fun _ _ => answer;
     perform_search := fun _ _ _ => answer;
     get_movie_info := fun _ _ => answer;
     get_series_info := fun _ _ => answer;
     extract_video_sources := fun _ _ => answer;
     get_category_content := fun _ _ _ => answer |}.

(** *** What each handler is made of

    The six handlers share one shape and differ in four places: the
    cache key, the scraper call, the number of seconds given to
    [setex], and whether [setex] sits under [if data:]. *)

Definition cache_key (r : request) : string :=
  match r with
  | ApiHome page => "home_page_" ++ Py.str_of_int page
  | ApiSearch body =>
      "search_" ++ query body ++ "_" ++ Py.str_of_opt_int (page body)
  | ApiMovie movie_id => "movie_" ++ movie_id
  | ApiSeries series_id => "series_" ++ series_id
  | ApiWatch content_id => "watch_" ++ content_id
  | ApiCategory category page =>
      "category_" ++ category ++ "_" ++ Py.str_of_int page
  end.

Definition resolver (r : request) : call :=
  match r with
  | ApiHome page => GetHomeContent page
  | ApiSearch body => PerformSearch (query body) (page body)
  | ApiMovie movie_id => GetMovieInfo movie_id
  | ApiSeries series_id => GetSeriesInfo series_id
  | ApiWatch content_id => ExtractVideoSources content_id
  | ApiCategory category page => GetCategoryContent category page
  end.

Definition setex_seconds (r : request) : Z :=
  match r with
  | ApiHome _ => 3600
  | ApiSearch _ => 1800
  | ApiMovie _ => 7200
  | ApiSeries _ => 7200
  | ApiWatch _ => 3600
  | ApiCategory _ _ => 3600
  end.

Definition setex_guarded (r : request) : bool :=
  match r with
  | ApiMovie _ | ApiSeries _ | ApiWatch _ => true
  | ApiHome _ | ApiSearch _ | ApiCategory _ _ => false
  end.

(** The shared shape. *)
Definition read_through {scraper : Scraper} (key : string) (c : call)
    (seconds : Z) (guarded : bool) : M json :=
  let* cached := redis_client_get key in
  if Py.opt_str_truthy cached then json_loads cached
  else
    let* data := await c in
    (if guarded && negb (truthy data)
     then ret tt
     else redis_client_setex key seconds (json_dumps data)) ;;
    ret data.

(** [redis_client.get(key)] gives nothing usable: the key is missing,
    expired, or holds the empty string. *)
Definition cache_miss (st : state) (key : string) : Prop :=
  Py.opt_str_truthy (Redis.get (clock st) (redis_db st) key) = false.

(** An empty database at instant 0, before any scraper call. *)
Definition cold : state := State ∅ 0 [].

(** Every stored string was produced by [json.dumps]. *)
Definition well_formed (db : gmap string Redis.entry) : Prop :=
  forall k e, db !! k = Some e -> exists v, Redis.value e = Json.dumps v.

(** The states the service can be in: it starts cold, time passes, and
    requests are handled one after the other. *)
Inductive reachable {scraper : Scraper} : state -> Prop :=
| reachable_cold : reachable cold
| reachable_tick (d : Z) (st : state) :
    0 <= d -> reachable st -> reachable (tick d st)
| reachable_handle (r : request) (st : state) :
    reachable st -> reachable (snd (handle r st)).

(** The same request served again and again, [d] seconds passing before
    each time, for each [d] of [delays]. *)
Fixpoint serve {scraper : Scraper} (r : request) (delays : list Z)
    (st : state) : list (outcome json) * state :=
  match delays with
  | [] => ([], st)
  | d :: delays' =>
      let '(x, st') := handle r (tick d st) in
      let '(xs, st'') := serve r delays' st' in
      (x :: xs, st'')
  end.

(** The sum of a list of delays. *)
Definition total (delays : list Z) : Z := fold_right Z.add 0 delays.

(** *** A handler around its [await]

    Each handler has one suspension point, the [await] of its scraper
    coroutine, between [redis_client.get] and [redis_client.setex], and
    takes no lock.  While a handler is suspended there, the handlers of
    other requests run. *)







End Main.

(* ===================================================================== *)
(** ** [backend/src/models.py] *)
(* ===================================================================== *)

Module Models.

(** A model class is a record; constructing an instance from keyword
    arguments is a function from the arguments given (each one present or
    not) to the instance or the list of field errors.  Arguments are taken
    after pydantic has coerced them to the declared type; what is modelled
    is presence, defaults, [Field] constraints and [@validator]
    functions. *)

(** [class Quality(str, Enum)] *)
Inductive Quality : Type := SD | HD | FHD | UHD.

(** The member of [Quality] with a given value. *)
Definition Quality_of_value (s : string) : option Quality :=
  if String.eqb s "SD" then Some SD
  else if String.eqb s "HD" then Some HD
  else if String.eqb s "FHD" then Some FHD
  else if String.eqb s "UHD" then Some UHD
  else None.

(** One line of a pydantic [ValidationError]: the field and the message. *)
Record error : Type := Error { loc : string; msg : string }.

(** The result of constructing a model: the instance, or the errors of
    all the fields that failed, in field order. *)
Inductive result (A : Type) : Type :=
| Valid (a : A)
| Invalid (errors : list error).
Arguments Valid {A} a.
Arguments Invalid {A} errors.

Definition ap {A B} (f : result (A -> B)) (x : result A) : result B :=
  match f, x with
  | Valid g, Valid a => Valid (g a)
  | Valid _, Invalid e => Invalid e
  | Invalid e, Valid _ => Invalid e
  | Invalid e1, Invalid e2 => Invalid (e1 ++ e2)
  end.

Declare Scope model_scope.
Delimit Scope model_scope with model.
Notation "f <*> x" := (ap f x) (at level 51, left associativity)
  : model_scope.
#[local] Open Scope model_scope.

(** What a [@validator] function does: return the value to store, or
    raise [ValueError] with a message. *)
Inductive checked (A : Type) : Type :=
| Accept (a : A)
| ValueError (message : string).
Arguments Accept {A} a.
Arguments ValueError {A} message.

Definition located {A} (field : string) (c : checked A) : result A :=
  match c with
  | Accept a => Valid a
  | ValueError m => Invalid [Error field m]
  end.

(** A field declared with [Field(...)]: required. *)
Definition required {A} (field : string) (given : option A) : result A :=
  match given with
  | Some a => Valid a
  | None => Invalid [Error field "field required"]
  end.

(** A field with a default value. *)
Definition with_default {A} (d : A) (given : option A) : A :=
  match given with
  | Some a => a
  | None => d
  end.

(** An [int] field with [ge=bound]. *)
Definition int_ge (bound : Z) (v : Z) : checked Z :=
  if bound <=? v then Accept v
  else ValueError ("ensure this value is greater than or equal to "
                   ++ Py.str_of_int bound).

(** An [Optional[float]] field with [ge=lo, le=hi], the float read as a
    rational; the constraints are not applied to [None]. *)
Definition opt_float_between (lo hi : Z) (v : option Q)
    : checked (option Q) :=
  match v with
  | None => Accept None
  | Some r =>
      if negb (Qle_bool (inject_Z lo) r)
      then ValueError ("ensure this value is greater than or equal to "
                       ++ Py.str_of_int lo)
      else if negb (Qle_bool r (inject_Z hi))
      then ValueError ("ensure this value is less than or equal to "
                       ++ Py.str_of_int hi)
      else Accept (Some r)
  end.

(** *** [class MovieBase(BaseModel)] *)

Record MovieBase : Type :=
  { movie_id : string;
    movie_title : string;
    movie_original_title : option string;
    movie_description : option string;
    movie_year : option Z;
    movie_duration : option Z;
    movie_rating : option Q }.

(** The keyword arguments given to [MovieBase(...)]; [None] stands for
    a field that is missing (or, for an optional field, given as
    [None]). *)
Record MovieBase_input : Type :=
  { in_id : option string;
    in_title : option string;
    in_original_title : option string;
    in_description : option string;
    in_year : option Z;
    in_duration : option Z;
    in_rating : option Q }.

(** [MovieBase.validate_year(cls, v)]; [current_year] is
    [datetime.now().year]. *)
Definition validate_year (current_year : Z) (v : option Z)
    : checked (option Z) :=
  match v with
  | None => Accept None
  | Some y =>
      if Py.int_truthy y && ((y <? 1900) || (y >? current_year + 1))
      then ValueError "Invalid year"
      else Accept (Some y)
  end.

Definition MovieBase_new (current_year : Z) (raw : MovieBase_input)
    : result MovieBase :=
  Valid Build_MovieBase
    <*> required "id" (in_id raw)
    <*> required "title" (in_title raw)
    <*> Valid (in_original_title raw)
    <*> Valid (in_description raw)
    <*> located "year" (validate_year current_year (in_year raw))
    <*> Valid (in_duration raw)
    <*> located "rating" (opt_float_between 0 10 (in_rating raw)).

(** *** [class EpisodeBase(BaseModel)] *)

Record EpisodeBase : Type :=
  { episode_id : string;
    episode_title : string;
    episode_number : Z;
    season_number : Z;
    episode_description : option string;
    episode_duration : option Z }.

Record EpisodeBase_input : Type :=
  { in_episode_id : option string;
    in_episode_title : option string;
    in_episode_number : option Z;
    in_season_number : option Z;
    in_episode_description : option string;
    in_episode_duration : option Z }.

(** [EpisodeBase.validate_title(cls, v)] *)
Definition validate_title (v : string) : checked string :=
  if negb (Py.str_truthy v) || String.eqb (Py.strip v) EmptyString
  then ValueError "Title cannot be empty"
  else Accept (Py.strip v).

Definition and_then {A B} (x : result A) (f : A -> result B) : result B :=
  match x with
  | Valid a => f a
  | Invalid e => Invalid e
  end.

Definition EpisodeBase_new (raw : EpisodeBase_input) : result EpisodeBase :=
  Valid Build_EpisodeBase
    <*> required "id" (in_episode_id raw)
    <*> and_then (required "title" (in_episode_title raw))
          (fun v => located "title" (validate_title v))
    <*> and_then (required "episode_number" (in_episode_number raw))
          (fun v => located "episode_number" (int_ge 1 v))
    <*> match in_season_number raw with
        | Some v => located "season_number" (int_ge 1 v)
        | None => Valid 1
        end
    <*> Valid (in_episode_description raw)
    <*> Valid (in_episode_duration raw).

(** *** [class VideoSource(BaseModel)] *)

Record VideoSource : Type :=
  { url : string;
    quality : Quality;
    type : string;
    size : option string;
    bitrate : option Z;
    width : option Z;
    height : option Z;
    is_direct : bool;
    requires_proxy : bool }.

Record VideoSource_input : Type :=
  { in_url : option string;
    in_quality : option string;
    in_type : option string;
    in_size : option string;
    in_bitrate : option Z;
    in_width : option Z;
    in_height : option Z;
    in_is_direct : option bool;
    in_requires_proxy : option bool }.

(** [VideoSource.validate_url(cls, v)] *)
Definition validate_url (v : string) : checked string :=
  if negb (Py.str_truthy v)
     || negb (Py.startswith_any v ["http://"; "https://"; "//"])
  then ValueError "Invalid URL format"
  else Accept v.

Definition enum_member (v : string) : checked Quality :=
  match Quality_of_value v with
  | Some q => Accept q
  | None => ValueError "value is not a valid enumeration member"
  end.

Definition VideoSource_new (raw : VideoSource_input) : result VideoSource :=
  Valid Build_VideoSource
    <*> and_then (required "url" (in_url raw))
          (fun v => located "url" (validate_url v))
    <*> match in_quality raw with
        | Some v => located "quality" (enum_member v)
        | None => Valid HD
        end
    <*> Valid (with_default "video/mp4" (in_type raw))
    <*> Valid (in_size raw)
    <*> Valid (in_bitrate raw)
    <*> Valid (in_width raw)
    <*> Valid (in_height raw)
    <*> Valid (with_default true (in_is_direct raw))
    <*> Valid (with_default false (in_requires_proxy raw)).

(** *** [class ContentType(str, Enum)] and [class Language(str, Enum)] *)

Inductive ContentType : Type := MOVIE | SERIES | SHOW | ANIME | DRAMA.

Definition ContentType_of_value (s : string) : option ContentType :=
  if String.eqb s "movie" then Some MOVIE
  else if String.eqb s "series" then Some SERIES
  else if String.eqb s "show" then Some SHOW
  else if String.eqb s "anime" then Some ANIME
  else if String.eqb s "drama" then Some DRAMA
  else None.

Inductive Language : Type :=
| ARABIC | TURKISH | ENGLISH | HINDI | KOREAN | JAPANESE | MULTI.

Definition Language_of_value (s : string) : option Language :=
  if String.eqb s "arabic" then Some ARABIC
  else if String.eqb s "turkish" then Some TURKISH
  else if String.eqb s "english" then Some ENGLISH
  else if String.eqb s "hindi" then Some HINDI
  else if String.eqb s "korean" then Some KOREAN
  else if String.eqb s "japanese" then Some JAPANESE
  else if String.eqb s "multi" then Some MULTI
  else None.

(** A field whose type is an enumeration, given by value. *)
Definition member_of {A} (of_value : string -> option A) (v : string)
    : checked A :=
  match of_value v with
  | Some a => Accept a
  | None => ValueError "value is not a valid enumeration member"
  end.

(** An optional field: a check runs only on a value that is given and
    is not [None]. *)
Definition optional {A B} (field : string) (check : A -> checked B)
    (given : option A) : result (option B) :=
  match given with
  | None => Valid None
  | Some a =>
      match check a with
      | Accept b => Valid (Some b)
      | ValueError m => Invalid [Error field m]
      end
  end.

(** *** [class SeriesBase(BaseModel)] *)

Record SeriesBase : Type :=
  { series_id : string;
    series_title : string;
    series_original_title : option string;
    series_description : option string;
    year_start : option Z;
    year_end : option Z;
    series_rating : option Q;
    total_seasons : option Z;
    total_episodes : option Z }.

Record SeriesBase_input : Type :=
  { in_series_id : option string;
    in_series_title : option string;
    in_series_original_title : option string;
    in_series_description : option string;
    in_year_start : option Z;
    in_year_end : option Z;
    in_series_rating : option Q;
    in_total_seasons : option Z;
    in_total_episodes : option Z }.

(** [SeriesBase.validate_year_end(cls, v, values)]; of [values] only the
    entry for [year_start] is read: [None] when the key is not there,
    [Some x] when it is there with value [x]. *)
Definition validate_year_end (v : option Z) (values : option (option Z))
    : checked (option Z) :=
  match values, v with
  | Some (Some s), Some e =>
      if Py.int_truthy e && Py.int_truthy s && (e <? s)
      then ValueError "End year cannot be before start year"
      else Accept v
  | _, _ => Accept v
  end.

Definition SeriesBase_new (raw : SeriesBase_input) : result SeriesBase :=
  Valid Build_SeriesBase
    <*> required "id" (in_series_id raw)
    <*> required "title" (in_series_title raw)
    <*> Valid (in_series_original_title raw)
    <*> Valid (in_series_description raw)
    <*> Valid (in_year_start raw)
    <*> located "year_end"
          (validate_year_end (in_year_end raw) (Some (in_year_start raw)))
    <*> located "rating" (opt_float_between 0 10 (in_series_rating raw))
    <*> optional "total_seasons" (int_ge 1) (in_total_seasons raw)
    <*> optional "total_episodes" (int_ge 1) (in_total_episodes raw).

(** *** [class Subtitle(BaseModel)] *)

Record Subtitle : Type :=
  { subtitle_language : string;
    subtitle_url : string;
    subtitle_format : string;
    subtitle_is_default : bool }.

Record Subtitle_input : Type :=
  { in_subtitle_language : option string;
    in_subtitle_url : option string;
    in_subtitle_format : option string;
    in_subtitle_is_default : option bool }.

Definition valid_languages : list string :=
  ["ar"; "en"; "tr"; "fr"; "es"; "de"; "ru"; "fa"; "ur"].

(** [Subtitle.validate_language(cls, v)] *)
Definition validate_language (v : string) : checked string :=
  if negb (existsb (String.eqb v) valid_languages)
  then ValueError ("Language must be one of: " ++ Json.join valid_languages)
  else Accept v.

Definition Subtitle_new (raw : Subtitle_input) : result Subtitle :=
  Valid Build_Subtitle
    <*> and_then (required "language" (in_subtitle_language raw))
          (fun v => located "language" (validate_language v))
    <*> required "url" (in_subtitle_url raw)
    <*> Valid (with_default "srt" (in_subtitle_format raw))
    <*> Valid (with_default false (in_subtitle_is_default raw)).

(** *** Models inside models *)

(** The errors of an inner model, located under the outer field. *)
Definition relocate {A} (outer : string) (r : result A) : result A :=
  match r with
  | Valid a => Valid a
  | Invalid errors =>
      Invalid (map (fun e => Error (outer ++ " -> " ++ loc e) (msg e)) errors)
  end.

(** A [List[Model]] field: every item is constructed, and the errors of
    all items are reported, each under the index of its item. *)
Fixpoint list_of {I A} (new : I -> result A) (field : string) (index : nat)
    (items : list I) : result (list A) :=
  match items with
  | [] => Valid []
  | x :: rest =>
      Valid cons
        <*> relocate (field ++ " -> " ++ Py.str_of_int (Z.of_nat index)) (new x)
        <*> list_of new field (S index) rest
  end.

(** *** [class WatchResponse(BaseModel)] *)

Record WatchResponse : Type :=
  { content_id : string;
    watch_title : string;
    watch_type : ContentType;
    video_sources : list VideoSource;
    subtitles : list Subtitle;
    next_episode : option string;
    prev_episode : option string }.

Record WatchResponse_input : Type :=
  { in_content_id : option string;
    in_watch_title : option string;
    in_watch_type : option string;
    in_video_sources : option (list VideoSource_input);
    in_subtitles : option (list Subtitle_input);
    in_next_episode : option string;
    in_prev_episode : option string }.

Definition WatchResponse_new (raw : WatchResponse_input)
    : result WatchResponse :=
  Valid Build_WatchResponse
    <*> required "content_id" (in_content_id raw)
    <*> required "title" (in_watch_title raw)
    <*> and_then (required "type" (in_watch_type raw))
          (fun v => located "type" (member_of ContentType_of_value v))
    <*> list_of VideoSource_new "video_sources" 0
          (with_default [] (in_video_sources raw))
    <*> list_of Subtitle_new "subtitles" 0
          (with_default [] (in_subtitles raw))
    <*> Valid (in_next_episode raw)
    <*> Valid (in_prev_episode raw).

(** *** [class MovieCreate(MovieBase)] and [class MovieResponse(MovieCreate)]

    A subclass has the fields of its parent first, checked the same way,
    then its own. *)

Record MovieCreate : Type :=
  { create_base : MovieBase;
    poster_url : option string;
    backdrop_url : option string;
    trailer_url : option string;
    genres : list string;
    directors : list string;
    cast : list string;
    country : option string;
    movie_language : option Language;
    movie_quality : option Quality }.

Record MovieCreate_input : Type :=
  { in_create_base : MovieBase_input;
    in_poster_url : option string;
    in_backdrop_url : option string;
    in_trailer_url : option string;
    in_genres : option (list string);
    in_directors : option (list string);
    in_cast : option (list string);
    in_country : option string;
    in_movie_language : option string;
    in_movie_quality : option string }.

Definition MovieCreate_new (current_year : Z) (raw : MovieCreate_input)
    : result MovieCreate :=
  Valid Build_MovieCreate
    <*> MovieBase_new current_year (in_create_base raw)
    <*> Valid (in_poster_url raw)
    <*> Valid (in_backdrop_url raw)
    <*> Valid (in_trailer_url raw)
    <*> Valid (with_default [] (in_genres raw))
    <*> Valid (with_default [] (in_directors raw))
    <*> Valid (with_default [] (in_cast raw))
    <*> Valid (in_country raw)
    <*> optional "language" (member_of Language_of_value)
          (in_movie_language raw)
    <*> optional "quality" (member_of Quality_of_value)
          (in_movie_quality raw).

Record MovieResponse : Type :=
  { response_create : MovieCreate;
    created_at : Z;
    updated_at : Z;
    views : Z;
    source_url : string }.

Record MovieResponse_input : Type :=
  { in_response_create : MovieCreate_input;
    in_created_at : option Z;
    in_updated_at : option Z;
    in_views : option Z;
    in_source_url : option string }.

(** [now] is what [datetime.now()] returns, as a timestamp. *)
Definition MovieResponse_new (current_year now : Z)
    (raw : MovieResponse_input) : result MovieResponse :=
  Valid Build_MovieResponse
    <*> MovieCreate_new current_year (in_response_create raw)
    <*> Valid (with_default now (in_created_at raw))
    <*> Valid (with_default now (in_updated_at raw))
    <*> Valid (with_default 0 (in_views raw))
    <*> required "source_url" (in_source_url raw).

End Models.

(* ===================================================================== *)
(** ** The specification's vocabulary *)
(* ===================================================================== *)

Module Spec.

(** The six operations of the cache facade. *)
Inductive operation : Type :=
| home | search | movie | series | watch | category.

Definition operation_of (r : Main.request) : operation :=
  match r with
  | Main.ApiHome _ => home
  | Main.ApiSearch _ => search
  | Main.ApiMovie _ => movie
  | Main.ApiSeries _ => series
  | Main.ApiWatch _ => watch
  | Main.ApiCategory _ _ => category
  end.

(** The TTL table, in seconds. *)
Definition ttl (op : operation) : Z :=
  match op with
  | home => 3600
  | search => 1800
  | movie => 7200
  | series => 7200
  | watch => 3600
  | category => 3600
  end.

(** "normalized_query = query trimmed and lower-cased" *)
Definition normalized_query (q : string) : string := Py.lower (Py.strip q).

(** A candidate video source as the claims describe it: quality,
    directness and bitrate. *)
Definition candidate (q : string) (direct : bool) (rate : Z) : json :=
  JDict [("quality", JStr q); ("is_direct", JBool direct);
         ("bitrate", JInt rate)].

(** "UHD > FHD > HD > SD" *)
Definition quality_rank (q : Models.Quality) : Z :=
  match q with
  | Models.SD => 0
  | Models.HD => 1
  | Models.FHD => 2
  | Models.UHD => 3
  end.

Fixpoint field (name : string) (m : list (string * json)) : option json :=
  match m with
  | [] => None
  | (k, v) :: m' => if String.eqb k name then Some v else field name m'
  end.

(** The quality rank of a candidate, when it carries a known quality. *)
Definition rank_of (c : json) : option Z :=
  match c with
  | JDict m =>
      match field "quality" m with
      | Some (JStr q) => option_map quality_rank (Models.Quality_of_value q)
      | _ => None
      end
  | _ => None
  end.

(** "primary key = Quality descending": no candidate is followed by one
    of strictly higher quality. *)
Fixpoint quality_descending (l : list json) : bool :=
  match l with
  | [] => true
  | c :: l' =>
      forallb (fun c' =>
                 match rank_of c, rank_of c' with
                 | Some a, Some b => b <=? a
                 | _, _ => false
                 end) l'
      && quality_descending l'
  end.

End Spec.

(* ===================================================================== *)
(** ** Properties *)
(* ===================================================================== *)

#[local] Arguments String.append : simpl nomatch.
#[local] Arguments Json.join : simpl never.

Module Examples.
Import Main Models.

Example str_of_int_negative : Py.str_of_int (-42) = "-42".
Proof. reflexivity. Qed.

Example strip_both_ends : Py.strip "  The  Matrix  " = "The  Matrix".
Proof. reflexivity. Qed.

Example lower_mixed : Py.lower "BatMan 2" = "batman 2".
Proof. reflexivity. Qed.

Example dumps_search_result :
  dumps (JDict [("results", JList [JInt 1; JInt (-20); JNull; JBool true]);
                ("total_pages", JInt 0)])
  = "{" ++ dq ++ "results" ++ dq ++ ": [1, -20, null, true], "
        ++ dq ++ "total_pages" ++ dq ++ ": 0}".
Proof. reflexivity. Qed.

Example loads_with_spaces_and_escapes :
  loads ("{ " ++ dq ++ "t" ++ dq ++ " : [ " ++ dq ++ "a\u0041\n" ++ dq
         ++ " ,2 ] }")
  = Some (JDict [("t", JList [JStr (String "a" (String "A"
                                      (String "010" EmptyString)));
                              JInt 2])]).
Proof. vm_compute. reflexivity. Qed.

Example loads_rejects_trailing_text : loads "[1, 2] x" = None.
Proof. vm_compute. reflexivity. Qed.

(** The home page of the placeholder scraper is stored on the first
    request and served from the cache on the second. *)
Example home_page_twice :
  let scraper := placeholder in
  let first := get_home_page 1 cold in
  let second := get_home_page 1 (tick 10 first.2) in
  first.1 = Return (JDict [("sections", JList []); ("featured", JList [])])
  /\ second.1 = first.1
  /\ upstream_calls second.2 = [GetHomeContent 1]
  /\ Redis.get 3599 (redis_db second.2) "home_page_1" <> None
  /\ Redis.get 3600 (redis_db second.2) "home_page_1" = None.
Proof. vm_compute. repeat split; discriminate. Qed.

(** The placeholder finds no video source: the watch handler returns the
    empty list and stores nothing. *)
Example placeholder_watch_is_empty :
  @get_video_sources placeholder "c1" cold
  = (Return (JList []), State ∅ 0 [ExtractVideoSources "c1"]).
Proof. reflexivity. Qed.

(** The placeholder never finds a movie, so nothing is ever stored. *)
Example placeholder_movie_twice :
  let scraper := placeholder in
  let first := get_movie_details "m1" cold in
  let second := get_movie_details "m1" (tick 10 first.2) in
  first.1 = Return JNull /\ second.1 = Return JNull
  /\ redis_db second.2 = ∅
  /\ upstream_calls second.2 = [GetMovieInfo "m1"; GetMovieInfo "m1"].
Proof. repeat split. Qed.

Example year_1800_is_rejected :
  MovieBase_new 2025
    {| in_id := Some "m1"; in_title := Some "T"; in_original_title := None;
       in_description := None; in_year := Some 1800; in_duration := None;
       in_rating := None |}
  = Invalid [Error "year" "Invalid year"].
Proof. reflexivity. Qed.

Example rating_11_and_missing_id_are_both_reported :
  MovieBase_new 2025
    {| in_id := None; in_title := Some "T"; in_original_title := None;
       in_description := None; in_year := Some 1999; in_duration := None;
       in_rating := Some (11 # 1) |}
  = Invalid [Error "id" "field required";
             Error "rating" "ensure this value is less than or equal to 10"].
Proof. reflexivity. Qed.

Example episode_title_is_trimmed :
  EpisodeBase_new
    {| in_episode_id := Some "e1"; in_episode_title := Some "  Pilot ";
       in_episode_number := Some 1; in_season_number := None;
       in_episode_description := None; in_episode_duration := None |}
  = Valid {| episode_id := "e1"; episode_title := "Pilot";
             episode_number := 1; season_number := 1;
             episode_description := None; episode_duration := None |}.
Proof. reflexivity. Qed.

Example ftp_url_is_rejected :
  VideoSource_new
    {| in_url := Some "ftp://host/v.mp4"; in_quality := Some "4K";
       in_type := None; in_size := None; in_bitrate := None;
       in_width := None; in_height := None;
       in_is_direct := None; in_requires_proxy := None |}
  = Invalid [Error "url" "Invalid URL format";
             Error "quality" "value is not a valid enumeration member"].
Proof. reflexivity. Qed.

End Examples.

Module JsonFacts.

(** Induction over values that also covers the items of lists and the
    values of dicts. *)
Lemma json_ind (P : json -> Prop)
    (Hnull : P JNull)
    (Hbool : forall b, P (JBool b))
    (Hint : forall z, P (JInt z))
    (Hstr : forall s, P (JStr s))
    (Hlist : forall l, Forall P l -> P (JList l))
    (Hdict : forall m, Forall (fun kv => P (snd kv)) m -> P (JDict m)) :
  forall v, P v.
Proof.
  fix IH 1. intros [ | b | z | s | l | m].
  - exact Hnull.
  - apply Hbool.
  - apply Hint.
  - apply Hstr.
  - apply Hlist.
    induction l as [ | x l IHl]; constructor; [apply IH | exact IHl].
  - apply Hdict.
    induction m as [ | [k x] m IHm]; constructor; [apply IH | exact IHm].
Qed.

Lemma app_String (c : ascii) (s r : string) :
  String c s ++ r = String c (s ++ r).
Proof. reflexivity. Qed.

Lemma string_app_assoc (a b c : string) : (a ++ b) ++ c = a ++ (b ++ c).
Proof. induction a as [ | x a IH]; simpl; [reflexivity | now rewrite IH]. Qed.

Lemma length_string_app (a b : string) :
  String.length (a ++ b) = (String.length a + String.length b)%nat.
Proof. induction a as [ | x a IH]; simpl; [reflexivity | now rewrite IH]. Qed.

Lemma strip_prefix_app (p r : string) : strip_prefix p (p ++ r) = Some r.
Proof.
  induction p as [ | a p IH]; simpl; [reflexivity | ].
  now rewrite Ascii.eqb_refl.
Qed.

(** *** Strings *)

(** Case analysis over all 256 characters. *)
Ltac each_ascii c := destruct c as [[] [] [] [] [] [] [] []].

Lemma parse_str_escape_char (c : ascii) (tl : string) :
  parse_str (escape_char c ++ tl)
  = match parse_str tl with
    | Some (t, r) => Some (String c t, r)
    | None => None
    end.
Proof.
  each_ascii c; reflexivity.
Qed.

Lemma parse_str_escape (s r : string) :
  parse_str (escape s ++ dq ++ r) = Some (s, r).
Proof.
  induction s as [ | c s IH]; simpl; [reflexivity | ].
  rewrite string_app_assoc, parse_str_escape_char.
  change (String "034" r) with (dq ++ r). now rewrite IH.
Qed.

(** *** Integers *)

Lemma parse_digits_of_uint (d : Decimal.uint) (r : string) :
  no_digit_head r ->
  parse_digits (NilEmpty.string_of_uint d ++ r) = (d, r).
Proof.
  intros Hr.
  induction d as [ | d IH | d IH | d IH | d IH | d IH | d IH | d IH | d IH
                   | d IH | d IH ]; simpl;
    try (rewrite IH; reflexivity).
  destruct r as [ | c r]; simpl in *; [reflexivity | now rewrite Hr].
Qed.

Lemma parse_int_of_uint (d : Decimal.uint) (r : string) :
  d <> Decimal.Nil -> no_digit_head r ->
  parse_int (NilEmpty.string_of_uint d ++ r)
  = Some (Z.of_int (Decimal.Pos d), r)
  /\ parse_int (String "-" (NilEmpty.string_of_uint d ++ r))
     = Some (Z.of_int (Decimal.Neg d), r).
Proof.
  intros Hd Hr. split.
  - pose proof (parse_digits_of_uint d r Hr) as E.
    destruct d; try congruence; simpl in *; rewrite E; reflexivity.
  - simpl. rewrite (parse_digits_of_uint d r Hr).
    destruct d; try congruence; reflexivity.
Qed.

Lemma str_of_int_cases (z : Z) :
  exists d, d <> Decimal.Nil /\
    ((Z.to_int z = Decimal.Pos d /\ Py.str_of_int z = NilEmpty.string_of_uint d)
     \/ (Z.to_int z = Decimal.Neg d
         /\ Py.str_of_int z = String "-" (NilEmpty.string_of_uint d))).
Proof.
  unfold Py.str_of_int.
  destruct z as [ | p | p]; simpl.
  - exists (Decimal.D0 Decimal.Nil).
    split; [discriminate | left; split; reflexivity].
  - exists (Pos.to_uint p). pose proof (Unsigned.to_uint_nonnil p) as Hn.
    split; [exact Hn | left; split; [reflexivity | ]].
    unfold NilZero.string_of_uint. destruct (Pos.to_uint p); congruence.
  - exists (Pos.to_uint p). pose proof (Unsigned.to_uint_nonnil p) as Hn.
    split; [exact Hn | right; split; [reflexivity | ]].
    unfold NilZero.string_of_uint. destruct (Pos.to_uint p); congruence.
Qed.

Lemma parse_int_str_of_int (z : Z) (r : string) :
  no_digit_head r -> parse_int (Py.str_of_int z ++ r) = Some (z, r).
Proof.
  intros Hr. destruct (str_of_int_cases z) as (d & Hd & [[Ei Es] | [Ei Es]]);
    rewrite Es; destruct (parse_int_of_uint d r Hd Hr) as [Hp Hn].
  - rewrite Hp, <- Ei, DecimalZ.of_to. reflexivity.
  - rewrite app_String, Hn, <- Ei, DecimalZ.of_to. reflexivity.
Qed.

(** [str(n)] is never empty, and distinct integers print differently. *)
Lemma str_of_int_nonempty (z : Z) : Py.str_truthy (Py.str_of_int z) = true.
Proof.
  destruct (str_of_int_cases z) as (d & Hd & [[_ Es] | [_ Es]]); rewrite Es;
    [destruct d; congruence || reflexivity | reflexivity].
Qed.

Lemma str_of_int_inj (a b : Z) : Py.str_of_int a = Py.str_of_int b -> a = b.
Proof.
  intros E.
  pose proof (parse_int_str_of_int a EmptyString I) as Ha.
  pose proof (parse_int_str_of_int b EmptyString I) as Hb.
  rewrite E in Ha. rewrite Ha in Hb. congruence.
Qed.

(** *** Values *)

Lemma delim_no_digit (r : string) : delim r -> no_digit_head r.
Proof.
  destruct r as [ | c r]; simpl; [trivial | ]. now intros [-> | [-> | ->]].
Qed.

Lemma delim_skip_ws (r : string) : delim r -> skip_ws r = r.
Proof.
  destruct r as [ | c r]; simpl; [trivial | ]. now intros [-> | [-> | ->]].
Qed.

Lemma parse_value_head (n : nat) (c : ascii) (s : string) :
  is_ws c = false ->
  parse_value (S n) (String c s)
  = if Ascii.eqb c "n" then
      match strip_prefix "ull" s with
      | Some r' => Some (JNull, r')
      | None => None
      end
    else if Ascii.eqb c "t" then
      match strip_prefix "rue" s with
      | Some r' => Some (JBool true, r')
      | None => None
      end
    else if Ascii.eqb c "f" then
      match strip_prefix "alse" s with
      | Some r' => Some (JBool false, r')
      | None => None
      end
    else if Ascii.eqb c "034" then
      match parse_str s with
      | Some (k, r') => Some (JStr k, r')
      | None => None
      end
    else if Ascii.eqb c "[" then
      match strip_prefix "]" (skip_ws s) with
      | Some r' => Some (JList [], r')
      | None =>
          match parse_items n s with
          | Some (l, r') => Some (JList l, r')
          | None => None
          end
      end
    else if Ascii.eqb c "{" then
      match strip_prefix "}" (skip_ws s) with
      | Some r' => Some (JDict [], r')
      | None =>
          match parse_members n s with
          | Some (m, r') => Some (JDict m, r')
          | None => None
          end
      end
    else
      match parse_int (String c s) with
      | Some (z, r') => Some (JInt z, r')
      | None => None
      end.
Proof. intros Hc. simpl. rewrite Hc. reflexivity. Qed.

Lemma parse_items_S (n : nat) (s : string) :
  parse_items (S n) s
  = match parse_value n s with
    | Some (v, r) =>
        match skip_ws r with
        | EmptyString => None
        | String c r' =>
            if Ascii.eqb c "," then
              match parse_items n r' with
              | Some (l, r'') => Some (v :: l, r'')
              | None => None
              end
            else if Ascii.eqb c "]" then Some ([v], r')
            else None
        end
    | None => None
    end.
Proof. reflexivity. Qed.

Lemma parse_members_S (n : nat) (s : string) :
  parse_members (S n) s
  = match strip_prefix dq (skip_ws s) with
    | Some r =>
        match parse_str r with
        | Some (k, r1) =>
            match strip_prefix ":" (skip_ws r1) with
            | Some r2 =>
                match parse_value n r2 with
                | Some (v, r3) =>
                    match skip_ws r3 with
                    | EmptyString => None
                    | String c r4 =>
                        if Ascii.eqb c "," then
                          match parse_members n r4 with
                          | Some (m, r5) => Some ((k, v) :: m, r5)
                          | None => None
                          end
                        else if Ascii.eqb c "}" then Some ([(k, v)], r4)
                        else None
                    end
                | None => None
                end
            | None => None
            end
        | None => None
        end
    | None => None
    end.
Proof. reflexivity. Qed.

Lemma parse_value_space (n : nat) (s : string) :
  parse_value n (String " " s) = parse_value n s.
Proof. destruct n; reflexivity. Qed.

Lemma parse_items_space (n : nat) (s : string) :
  parse_items n (String " " s) = parse_items n s.
Proof.
  destruct n; [reflexivity | ]. now rewrite !parse_items_S, parse_value_space.
Qed.

Lemma parse_value_number (n : nat) (c : ascii) (s : string) :
  digit_of c <> None \/ c = "-"%char ->
  parse_value (S n) (String c s)
  = match parse_int (String c s) with
    | Some (z, r') => Some (JInt z, r')
    | None => None
    end.
Proof.
  intros H.
  each_ascii c;
    solve [ reflexivity
          | exfalso; destruct H as [H | H]; [now apply H | discriminate H] ].
Qed.

Lemma uint_head (d : Decimal.uint) (r : string) :
  d <> Decimal.Nil ->
  exists c s, NilEmpty.string_of_uint d ++ r = String c s /\ digit_of c <> None.
Proof.
  intros Hd. destruct d; try congruence; simpl; eexists _, _;
    (split; [reflexivity | discriminate]).
Qed.

Lemma str_of_int_head (z : Z) (r : string) :
  exists c s, Py.str_of_int z ++ r = String c s
              /\ (digit_of c <> None \/ c = "-"%char).
Proof.
  destruct (str_of_int_cases z) as (d & Hd & [[_ Es] | [_ Es]]); rewrite Es.
  - destruct (uint_head d r Hd) as (c & s & E & Hc). exists c, s. auto.
  - exists "-"%char, (NilEmpty.string_of_uint d ++ r). auto.
Qed.

Lemma dumps_list (l : list json) :
  dumps (JList l) = String "[" (join (map dumps l) ++ "]").
Proof. reflexivity. Qed.

Lemma dumps_dict (m : list (string * json)) :
  dumps (JDict m) = String "{" (join (map member m) ++ "}").
Proof. reflexivity. Qed.

Lemma dumps_head (v : json) (r : string) : value_head (dumps v ++ r).
Proof.
  destruct v as [ | [] | z | s | l | m]; try solve [simpl; auto].
  destruct (str_of_int_head z r) as (c & s & E & Hc).
  simpl dumps. rewrite E. simpl.
  each_ascii c;
    solve [ auto
          | exfalso; destruct Hc as [H | H]; [now apply H | discriminate H] ].
Qed.

Lemma join_cons2 (x y : string) (l : list string) :
  join (x :: y :: l) = x ++ ", " ++ join (y :: l).
Proof. reflexivity. Qed.

Lemma value_head_not_closing (s : string) :
  value_head s ->
  skip_ws s = s /\ strip_prefix "]" s = None /\ strip_prefix "}" s = None
  /\ s <> EmptyString.
Proof.
  destruct s as [ | c s]; [simpl; tauto | ]. intros (Hw & Hb & Hc).
  rewrite Ascii.eqb_sym in Hb. rewrite Ascii.eqb_sym in Hc.
  assert (E : forall a, strip_prefix (String a EmptyString) (String c s)
                        = if Ascii.eqb a c then Some s else None)
    by reflexivity.
  rewrite !E, Hb, Hc. cbn [skip_ws]. rewrite Hw. repeat split; congruence.
Qed.

Lemma parse_items_dumps (l : list json) :
  Forall reads_back l -> l <> [] ->
  forall fuel r,
    (String.length (join (map dumps l)) + 1 < fuel)%nat ->
    parse_items fuel (join (map dumps l) ++ String "]" r) = Some (l, r).
Proof.
  induction 1 as [ | v l Hv Hl IH]; [congruence | intros _ fuel r Hf].
  destruct fuel as [ | n]; [lia | ]. rewrite parse_items_S.
  destruct l as [ | v' l'].
  - simpl map in *. change (join [dumps v]) with (dumps v) in *.
    rewrite (Hv n (String "]" r)); [reflexivity | lia | simpl; auto].
  - simpl map in *. rewrite join_cons2 in *.
    rewrite !length_string_app in Hf. simpl String.length in Hf.
    rewrite !string_app_assoc.
    rewrite (Hv n); [ | lia | simpl; auto ].
    simpl. rewrite parse_items_space.
    rewrite IH; [reflexivity | congruence | lia].
Qed.

Lemma length_member (k : string) (v : json) :
  (String.length (dumps v) < String.length (member (k, v)))%nat.
Proof.
  unfold member, quote. cbn [fst snd].
  rewrite !length_string_app. cbn [String.length]. lia.
Qed.

Lemma parse_members_dumps (m : list (string * json)) :
  Forall (fun kv => reads_back (snd kv)) m -> m <> [] ->
  forall fuel r,
    (String.length (join (map member m)) + 1 < fuel)%nat ->
    parse_members fuel (join (map member m) ++ String "}" r) = Some (m, r).
Proof.
  induction 1 as [ | [k v] m Hv Hm IH]; [congruence | intros _ fuel r Hf].
  destruct fuel as [ | n]; [lia | ]. rewrite parse_members_S.
  simpl in Hv.
  assert (Hstart : forall tl,
    strip_prefix dq (skip_ws ((member (k, v) ++ tl)))
    = Some (escape k ++ dq ++ ": " ++ dumps v ++ tl)).
  { intros tl. unfold member, quote. simpl.
    now rewrite !string_app_assoc. }
  destruct m as [ | kv' m'].
  - simpl map in *. change (join [member (k, v)]) with (member (k, v)) in *.
    rewrite Hstart, parse_str_escape. simpl.
    pose proof (length_member k v) as Hlen.
    rewrite parse_value_space.
    rewrite (Hv n (String "}" r)); [reflexivity | lia | simpl; auto].
  - simpl map in *. rewrite join_cons2 in *.
    rewrite !length_string_app in Hf. cbn [String.length] in Hf.
    pose proof (length_member k v) as Hlen.
    rewrite string_app_assoc. rewrite Hstart, parse_str_escape. simpl.
    rewrite parse_value_space.
    rewrite (Hv n); [ | lia | simpl; auto ].
    simpl.
    assert (Hsp : forall k s,
              parse_members k (String " " s) = parse_members k s).
    { intros [ | k'] s'; [reflexivity | now rewrite !parse_members_S]. }
    rewrite Hsp.
    rewrite IH; [reflexivity | congruence | lia].
Qed.

Lemma parse_value_dumps (v : json) : reads_back v.
Proof.
  induction v as [ | b | z | s | l Hl | m Hm] using json_ind;
    intros fuel r Hf Hr; (destruct fuel as [ | n]; [lia | ]).
  - reflexivity.
  - destruct b; reflexivity.
  - destruct (str_of_int_head z r) as (c & s & E & Hc).
    change (dumps (JInt z)) with (Py.str_of_int z).
    rewrite E, parse_value_number by exact Hc.
    rewrite <- E, parse_int_str_of_int;
      [reflexivity | now apply delim_no_digit].
  - change (dumps (JStr s)) with (String "034" (escape s ++ dq)).
    rewrite app_String, parse_value_head by reflexivity.
    cbn [Ascii.eqb Bool.eqb]. cbv iota.
    rewrite string_app_assoc. now rewrite parse_str_escape.
  - rewrite dumps_list in *. cbn [String.length] in Hf.
    rewrite length_string_app in Hf. cbn [String.length] in Hf.
    rewrite app_String, parse_value_head by reflexivity.
    cbn [Ascii.eqb Bool.eqb]. cbv iota.
    rewrite string_app_assoc. change ("]" ++ r) with (String "]" r).
    destruct l as [ | x l].
    + reflexivity.
    + assert (Hh : value_head (join (map dumps (x :: l)) ++ String "]" r)).
      { destruct l; simpl map;
          [change (join [dumps x]) with (dumps x)
          | rewrite join_cons2, !string_app_assoc];
          apply dumps_head. }
      destruct (value_head_not_closing _ Hh) as (-> & -> & _).
      rewrite parse_items_dumps; [reflexivity | exact Hl | congruence | lia].
  - rewrite dumps_dict in *. cbn [String.length] in Hf.
    rewrite length_string_app in Hf. cbn [String.length] in Hf.
    rewrite app_String, parse_value_head by reflexivity.
    cbn [Ascii.eqb Bool.eqb]. cbv iota.
    rewrite string_app_assoc. change ("}" ++ r) with (String "}" r).
    destruct m as [ | x m].
    + reflexivity.
    + assert (Hh : value_head (join (map member (x :: m)) ++ String "}" r)).
      { destruct m; simpl map;
          [change (join [member x]) with (member x)
          | rewrite join_cons2, !string_app_assoc];
          unfold member, quote; simpl; auto. }
      destruct (value_head_not_closing _ Hh) as (-> & _ & -> & _).
      rewrite parse_members_dumps; [reflexivity | exact Hm | congruence | lia].
Qed.

Lemma string_app_empty_r (s : string) : s ++ EmptyString = s.
Proof. induction s as [ | c s IH]; simpl; [reflexivity | now rewrite IH]. Qed.

(** [json.loads(json.dumps(v)) == v] *)
Theorem loads_dumps (v : json) : loads (dumps v) = Some v.
Proof.
  unfold loads.
  pose proof (parse_value_dumps v (S (String.length (dumps v))) EmptyString)
    as H.
  rewrite string_app_empty_r in H. rewrite H; [reflexivity | lia | exact I].
Qed.

(** [json.dumps(v)] is never the empty string. *)
Lemma dumps_truthy (v : json) : Py.str_truthy (dumps v) = true.
Proof.
  pose proof (dumps_head v EmptyString) as H. rewrite string_app_empty_r in H.
  destruct (dumps v); [destruct H | reflexivity].
Qed.

End JsonFacts.

Module RedisFacts.

Lemma get_setex_same (now now' seconds : Z) (key val : string)
    (db : gmap string Redis.entry) :
  Redis.get now' (Redis.setex now key seconds val db) key
  = if now' <? now + seconds then Some val else None.
Proof. unfold Redis.get, Redis.setex. now rewrite lookup_insert_eq. Qed.

Lemma get_setex_other (now now' seconds : Z) (key key' val : string)
    (db : gmap string Redis.entry) :
  key <> key' ->
  Redis.get now' (Redis.setex now key seconds val db) key'
  = Redis.get now' db key'.
Proof.
  intros Hne. unfold Redis.get, Redis.setex. now rewrite lookup_insert_ne.
Qed.

(** A value that cannot be read now cannot be read later either. *)
Lemma get_falsy_later (now d : Z) (key : string)
    (db : gmap string Redis.entry) :
  0 <= d ->
  Py.opt_str_truthy (Redis.get now db key) = false ->
  Py.opt_str_truthy (Redis.get (now + d) db key) = false.
Proof.
  intros Hd. unfold Redis.get.
  destruct (db !! key) as [e | ]; [ | trivial].
  destruct (now <? Redis.expires_at e) eqn:E1,
           (now + d <? Redis.expires_at e) eqn:E2; trivial.
  apply Z.ltb_ge in E1. apply Z.ltb_lt in E2. lia.
Qed.

End RedisFacts.

Module MainFacts.
Import Main.

Section WithScraper.

Context {scraper : Scraper}.

(** Each handler is the shared shape at its own key, call, seconds
    and guard. *)
Lemma handle_read_through (r : request) (st : state) :
  handle r st
  = read_through (cache_key r) (resolver r) (setex_seconds r)
      (setex_guarded r) st.
Proof.
  destruct r as [p | [q p] | i | i | i | c p]; cbn -[String.append];
    unfold get_home_page, search_content, get_movie_details,
      get_series_details, get_video_sources, get_category, read_through,
      bind, redis_client_get;
    cbn -[String.append];
    (destruct (Py.opt_str_truthy _); [reflexivity | ]);
    unfold await; cbn -[String.append];
    match goal with
    | |- context [match ?x with Return _ => _ | Raise _ => _ end] =>
        destruct x as [v | e]
    end;
    cbn -[String.append]; try reflexivity;
    destruct (truthy v); reflexivity.
Qed.

(** A usable cached string is decoded and returned; nothing else
    happens. *)
Lemma read_through_hit (key : string) (c : call) (seconds : Z)
    (guarded : bool) (st : state) (s : string) :
  Redis.get (clock st) (redis_db st) key = Some s ->
  Py.str_truthy s = true ->
  read_through key c seconds guarded st
  = (match loads s with
     | Some v => Return v
     | None => Raise JSONDecodeError
     end, st).
Proof.
  intros Hg Hs. unfold read_through, bind, redis_client_get.
  rewrite Hg. cbn. rewrite Hs. unfold json_loads.
  destruct (loads s); reflexivity.
Qed.

(** On a miss the scraper is called once, and its answer decides what
    is stored. *)
Lemma read_through_miss (key : string) (c : call) (seconds : Z)
    (guarded : bool) (st : state) :
  cache_miss st key ->
  read_through key c seconds guarded st
  = match coroutine c (upstream_calls st) with
    | Return v =>
        (Return v,
         State (if guarded && negb (truthy v) then redis_db st
                else Redis.setex (clock st) key seconds (dumps v)
                       (redis_db st))
               (clock st) (upstream_calls st ++ [c]))
    | Raise e =>
        (Raise e, State (redis_db st) (clock st) (upstream_calls st ++ [c]))
    end.
Proof.
  unfold cache_miss. intros Hm.
  unfold read_through, bind, redis_client_get. rewrite Hm.
  unfold await. destruct (coroutine c (upstream_calls st)) as [v | e];
    [ | reflexivity].
  destruct (guarded && negb (truthy v)); reflexivity.
Qed.

Lemma cache_miss_tick (st : state) (key : string) (d : Z) :
  0 <= d -> cache_miss st key -> cache_miss (tick d st) key.
Proof. intros Hd Hm. now apply RedisFacts.get_falsy_later. Qed.

(** A handler never changes the clock, and makes at most one scraper
    call, the one of its request. *)
Lemma handle_clock_calls (r : request) (st : state) :
  clock (handle r st).2 = clock st
  /\ (upstream_calls (handle r st).2 = upstream_calls st
      \/ upstream_calls (handle r st).2
         = (upstream_calls st ++ [resolver r])%list).
Proof.
  rewrite handle_read_through.
  unfold read_through, bind, redis_client_get, json_loads, await.
  destruct (Py.opt_str_truthy _).
  - destruct (Redis.get _ _ _) as [s | ]; [destruct (loads s) | ]; auto.
  - destruct (coroutine _ _) as [v | e]; [ | auto].
    destruct (setex_guarded r && negb (truthy v)); auto.
Qed.

(** Handlers keep the database well formed. *)
Lemma handle_well_formed (r : request) (st : state) :
  well_formed (redis_db st) -> well_formed (redis_db (handle r st).2).
Proof.
  intros Hwf. rewrite handle_read_through.
  unfold read_through, bind, redis_client_get, json_loads, await.
  destruct (Py.opt_str_truthy _).
  - destruct (Redis.get _ _ _) as [s | ]; [destruct (loads s) | ]; exact Hwf.
  - destruct (coroutine _ _) as [v | e]; [ | exact Hwf].
    destruct (setex_guarded r && negb (truthy v)); [exact Hwf | ].
    cbn. intros k e. unfold Redis.setex.
    destruct (decide (cache_key r = k)) as [-> | Hne].
    + rewrite lookup_insert_eq. intros [= <-]. now exists v.
    + rewrite lookup_insert_ne by exact Hne. apply Hwf.
Qed.

End WithScraper.

End MainFacts.

Module CacheClaims.
Import Main MainFacts.

Lemma cold_miss (key : string) : cache_miss cold key.
Proof. unfold cache_miss, cold, Redis.get. cbn. now rewrite lookup_empty. Qed.

(** The state a handler leaves after a miss that the scraper answered
    with [v]. *)
Lemma handle_miss (scraper : Scraper) (r : request) (st : state) (v : json) :
  cache_miss st (cache_key r) ->
  coroutine (resolver r) (upstream_calls st) = Return v ->
  handle r st
  = (Return v,
     State (if setex_guarded r && negb (truthy v) then redis_db st
            else Redis.setex (clock st) (cache_key r) (setex_seconds r)
                   (dumps v) (redis_db st))
           (clock st) (upstream_calls st ++ [resolver r])).
Proof.
  intros Hm Hv. now rewrite handle_read_through, read_through_miss, Hv.
Qed.

(** After any miss the scraper has been called exactly once more. *)
Lemma handle_miss_calls (scraper : Scraper) (r : request) (st : state) :
  cache_miss st (cache_key r) ->
  upstream_calls (handle r st).2 = (upstream_calls st ++ [resolver r])%list.
Proof.
  intros Hm. rewrite handle_read_through, read_through_miss by exact Hm.
  destruct (coroutine _ _); reflexivity.
Qed.

(** A present, unexpired entry written by [json.dumps] is returned as
    is: same state, no scraper call. *)
Lemma handle_hit (scraper : Scraper) (r : request) (st : state)
    (e : Redis.entry) (v : json) :
  redis_db st !! cache_key r = Some e ->
  clock st < Redis.expires_at e ->
  Redis.value e = dumps v ->
  handle r st = (Return v, st).
Proof.
  intros He Ht Hv. rewrite handle_read_through.
  rewrite (read_through_hit _ _ _ _ _ (dumps v)).
  - now rewrite JsonFacts.loads_dumps.
  - unfold Redis.get. rewrite He. apply Z.ltb_lt in Ht. now rewrite Ht, Hv.
  - apply JsonFacts.dumps_truthy.
Qed.

(** Whatever the service has done so far, the database holds only
    [json.dumps] texts. *)
Lemma reachable_well_formed (scraper : Scraper) (st : state) :
  reachable st -> well_formed (redis_db st).
Proof.
  induction 1 as [ | d st Hd Hst IH | r st Hst IH].
  - intros k e He. cbn in He. now rewrite lookup_empty in He.
  - exact IH.
  - now apply handle_well_formed.
Qed.

Lemma tick_tick (a b : Z) (st : state) : tick b (tick a st) = tick (a + b) st.
Proof. unfold tick. cbn. now rewrite Z.add_assoc. Qed.

Lemma tick_0 (st : state) : tick 0 st = st.
Proof.
  destruct st as [db c calls]. unfold tick. cbn. now rewrite Z.add_0_r.
Qed.

(** While an entry written by [json.dumps] stays unexpired, every further
    request for its key is answered from it, and only time moves. *)
Lemma serve_hits (scraper : Scraper) (r : request) (e : Redis.entry)
    (v : json) (delays : list Z) :
  Redis.value e = dumps v ->
  Forall (fun d => 0 <= d) delays ->
  forall st,
    redis_db st !! cache_key r = Some e ->
    clock st + total delays < Redis.expires_at e ->
    serve r delays st
    = (map (fun _ => Return v) delays, tick (total delays) st).
Proof.
  intros Hv Hpos. induction Hpos as [ | d delays Hd Hpos IH]; intros st He Ht.
  - cbn. now rewrite tick_0.
  - cbn [serve total fold_right map] in *. fold (total delays) in *.
    assert (Hle : 0 <= total delays).
    { clear - Hpos. induction Hpos as [ | x l Hx _ IHl]; cbn; [lia | ].
      fold (total l). lia. }
    rewrite (handle_hit _ r (tick d st) e v);
      [ | exact He | cbn; lia | exact Hv].
    rewrite IH; [ | exact He | cbn; lia].
    now rewrite tick_tick.
Qed.


(** C1. On a cache miss that the scraper answers with [v], the handler
    returns [v].  For movie, series and watch, when [v] is empty or
    absent (its Python truth value is false: [None], [[]], [{}], the
    empty string, and also [0] and [False]) the database is left as it
    was, so the
    same request at any later instant is a miss again and calls the
    scraper once more.  For home, search and category the key holds
    [json.dumps(v)] afterwards whatever [v] is, an empty result set
    included. *)
Theorem negative_result_suppression (scraper : Scraper) (r : request)
    (st : state) (v : json) :
  cache_miss st (cache_key r) ->
  coroutine (resolver r) (upstream_calls st) = Return v ->
  (handle r st).1 = Return v /\
  match Spec.operation_of r with
  | Spec.movie | Spec.series | Spec.watch =>
      truthy v = false ->
      redis_db (handle r st).2 = redis_db st /\
      forall d, 0 <= d ->
        upstream_calls (handle r (tick d (handle r st).2)).2
        = (upstream_calls (handle r st).2 ++ [resolver r])%list
  | Spec.home | Spec.search | Spec.category =>
      redis_db (handle r st).2 !! cache_key r
      = Some (Redis.Entry (dumps v) (clock st + Spec.ttl (Spec.operation_of r)))
  end.
Proof.
  intros Hm Hv. rewrite (handle_miss _ r st v Hm Hv).
  cbn [fst snd redis_db upstream_calls]. split; [reflexivity | ].
  destruct (setex_guarded r) eqn:Hg.
  - destruct r; try discriminate Hg; cbn [Spec.operation_of]; intros Hf;
      rewrite Hf; cbn [andb negb];
      (split; [reflexivity | intros d Hd]);
      apply handle_miss_calls;
      apply (cache_miss_tick (State (redis_db st) (clock st) _) _ d Hd Hm).
  - destruct r; try discriminate Hg; cbn [Spec.operation_of andb];
      apply lookup_insert_eq.
Qed.

Lemma negative_result_suppression_witness :
  let scraper := placeholder in
  let miss := handle (ApiMovie "missing") cold in
  let home := handle (ApiHome 1) cold in
  miss.1 = Return JNull
  /\ redis_db miss.2 = redis_db cold
  /\ upstream_calls (handle (ApiMovie "missing") (tick 5 miss.2)).2
     = [GetMovieInfo "missing"; GetMovieInfo "missing"]
  /\ redis_db home.2 !! "home_page_1"
     = Some (Redis.Entry
               (dumps (JDict [("sections", JList []); ("featured", JList [])]))
               3600).
Proof.
  intros scraper miss home.
  destruct (negative_result_suppression scraper (ApiMovie "missing") cold
              JNull (cold_miss _) eq_refl) as [H1 H2].
  destruct (H2 eq_refl) as [H3 H4].
  destruct (negative_result_suppression scraper (ApiHome 1) cold _
              (cold_miss _) eq_refl) as [_ H5].
  split; [exact H1 | split; [exact H3 | split; [ | exact H5]]].
  exact (H4 5 ltac:(lia)).
Defined.

(** C4. A handler either leaves the database as it was, or stores the
    encoded result under the request's key with an expiry exactly
    [ttl] seconds after the current instant, where [ttl] is the entry of
    the specification's table for the operation: 3600 for home, 1800 for
    search, 7200 for movie and series, 3600 for watch and category. *)
Theorem stored_with_operation_ttl (scraper : Scraper) (r : request)
    (st : state) :
  redis_db (handle r st).2 = redis_db st
  \/ exists v,
       (handle r st).1 = Return v
       /\ redis_db (handle r st).2
          = <[cache_key r :=
                Redis.Entry (dumps v)
                  (clock st + Spec.ttl (Spec.operation_of r))]> (redis_db st).
Proof.
  rewrite handle_read_through.
  unfold read_through, bind, redis_client_get, json_loads, await.
  destruct (Py.opt_str_truthy _).
  - left. destruct (Redis.get _ _ _) as [s | ]; [destruct (loads s) | ];
      reflexivity.
  - destruct (coroutine _ _) as [v | e]; [ | left; reflexivity].
    destruct (setex_guarded r && negb (truthy v)); [left; reflexivity | ].
    right. exists v. split; [reflexivity | ].
    destruct r; reflexivity.
Qed.

(** C3 (amended). In a database that holds what the handlers stored
    (every value is a [json.dumps] text), a key whose entry is present and
    unexpired is served from the cache: the handler returns the value the
    entry encodes and the state, the log of scraper calls included, is
    unchanged.  Hence two [get_movie_details] calls for one id, the second
    less than 7200 seconds after the first, where the first misses and
    the scraper's answer is truthy (neither absent nor empty), call the
    scraper exactly once, and the second returns the same value as the
    first and changes nothing. *)
Theorem cached_value_is_served_without_resolving (scraper : Scraper) :
  (forall (r : request) (st : state) (s : string),
      well_formed (redis_db st) ->
      Redis.get (clock st) (redis_db st) (cache_key r) = Some s ->
      exists v, s = dumps v /\ handle r st = (Return v, st))
  /\
  (forall (movie_id : string) (st : state) (v : json) (d : Z),
      cache_miss st ("movie_" ++ movie_id) ->
      get_movie_info movie_id (upstream_calls st) = Return v ->
      truthy v = true ->
      0 <= d < 7200 ->
      let first := get_movie_details movie_id st in
      let second := get_movie_details movie_id (tick d first.2) in
      first.1 = Return v
      /\ second = (Return v, tick d first.2)
      /\ upstream_calls second.2
         = (upstream_calls st ++ [GetMovieInfo movie_id])%list).
Proof.
  split.
  - intros r st s Hwf Hs. unfold Redis.get in Hs.
    destruct (redis_db st !! cache_key r) as [e | ] eqn:He; [ | discriminate].
    destruct (clock st <? Redis.expires_at e) eqn:Ht; [ | discriminate].
    injection Hs as <-. destruct (Hwf _ _ He) as [v Hv]. exists v.
    split; [exact Hv | ].
    apply (handle_hit _ r st e v He); [now apply Z.ltb_lt | exact Hv].
  - intros movie_id st v d Hm Hv Ht Hd first second. subst first second.
    change (get_movie_details movie_id) with (handle (ApiMovie movie_id)).
    rewrite (handle_miss _ (ApiMovie movie_id) st v Hm Hv).
    cbn [setex_guarded setex_seconds cache_key fst snd]. rewrite Ht.
    cbn [andb negb].
    rewrite (handle_hit _ (ApiMovie movie_id) _
               (Redis.Entry (dumps v) (clock st + 7200)) v).
    + auto.
    + cbn [tick redis_db cache_key]. unfold Redis.setex. apply lookup_insert_eq.
    + cbn. lia.
    + reflexivity.
Qed.

Lemma cached_value_is_served_without_resolving_witness :
  let scraper := always (Return (JStr "Heat")) in
  let first := get_movie_details "m1" cold in
  let second := get_movie_details "m1" (tick 60 first.2) in
  first.1 = Return (JStr "Heat")
  /\ second = (Return (JStr "Heat"), tick 60 first.2)
  /\ upstream_calls second.2 = [GetMovieInfo "m1"]
  /\ exists v, dumps (JStr "Heat") = dumps v
               /\ handle (ApiMovie "m1") (tick 60 first.2)
                  = (Return v, tick 60 first.2).
Proof.
  intros scraper first second.
  pose proof (cached_value_is_served_without_resolving scraper)
    as [Hhit Htwice].
  destruct (Htwice "m1" cold (JStr "Heat") 60 (cold_miss _) eq_refl eq_refl
              ltac:(lia)) as (H1 & H2 & H3).
  split; [exact H1 | split; [exact H2 | split; [exact H3 | ]]].
  apply (Hhit (ApiMovie "m1") (tick 60 first.2)).
  - apply (handle_well_formed (ApiMovie "m1") cold).
    intros k e He. cbn in He. now rewrite lookup_empty in He.
  - subst first. vm_compute. reflexivity.
Defined.

(** C3 as stated fails: a result that is not absent but empty (here
    [{}]) is not cached, so the second call within the TTL window
    resolves again and two scraper calls are made. *)
Lemma empty_movie_result_is_resolved_twice :
  ~ (forall (scraper : Scraper) (movie_id : string) (st : state) (v : json)
            (d : Z),
        cache_miss st ("movie_" ++ movie_id) ->
        get_movie_info movie_id (upstream_calls st) = Return v ->
        v <> JNull ->
        0 <= d < 7200 ->
        let first := get_movie_details movie_id st in
        let second := get_movie_details movie_id (tick d first.2) in
        (length (upstream_calls second.2) <= length (upstream_calls st) + 1)%nat
        /\ second.1 = first.1).
Proof.
  intros H.
  destruct (H (always (Return (JDict []))) "m1" cold (JDict []) 60
              (cold_miss _) eq_refl ltac:(discriminate) ltac:(lia))
    as [Hlen _].
  vm_compute in Hlen. lia.
Qed.

(** C10. When [get_movie_details] or [get_series_details] misses the
    cache and the scraper answers [None], the handler returns [None]
    as an ordinary result (not an exception) and leaves the database
    untouched; only the scraper call is recorded. *)
Theorem absent_entity_returns_null (scraper : Scraper) (r : request)
    (id : string) (st : state) :
  r = ApiMovie id \/ r = ApiSeries id ->
  cache_miss st (cache_key r) ->
  coroutine (resolver r) (upstream_calls st) = Return JNull ->
  handle r st
  = (Return JNull,
     State (redis_db st) (clock st) (upstream_calls st ++ [resolver r])).
Proof.
  intros Hr Hm Hv. rewrite (handle_miss _ r st JNull Hm Hv).
  destruct Hr as [-> | ->]; reflexivity.
Qed.

Lemma absent_entity_returns_null_witness :
  @get_movie_details placeholder "nope" cold
  = (Return JNull, State ∅ 0 [GetMovieInfo "nope"])
  /\ @get_series_details placeholder "nope" cold
     = (Return JNull, State ∅ 0 [GetSeriesInfo "nope"]).
Proof.
  split.
  - exact (absent_entity_returns_null placeholder (ApiMovie "nope") "nope"
             cold (or_introl eq_refl) (cold_miss _) eq_refl).
  - exact (absent_entity_returns_null placeholder (ApiSeries "nope") "nope"
             cold (or_intror eq_refl) (cold_miss _) eq_refl).
Defined.

(** C8 as stated fails: given the three candidates of the claim in the
    order SD/direct/500, HD/proxied/300, HD/direct/200, the watch handler
    returns them in that same order, which is not the ranked order of the
    claim and is not descending in quality. *)
Lemma watch_returns_candidates_unranked :
  let candidates :=
    [Spec.candidate "SD" true 500; Spec.candidate "HD" false 300;
     Spec.candidate "HD" true 200] in
  let ranked :=
    [Spec.candidate "HD" true 200; Spec.candidate "HD" false 300;
     Spec.candidate "SD" true 500] in
  (@get_video_sources (always (Return (JList candidates))) "c1" cold).1
  = Return (JList candidates)
  /\ JList candidates <> JList ranked
  /\ Spec.quality_descending candidates = false
  /\ Spec.quality_descending ranked = true.
Proof.
  intros candidates ranked.
  split; [reflexivity | split; [discriminate | split; reflexivity]].
Qed.

(** C8 (amended). On a cache miss the watch handler returns the
    candidate list exactly as [extract_video_sources] produced it:
    same sources, same order, no ranking applied. *)
Theorem watch_returns_resolver_order (scraper : Scraper)
    (content_id : string) (st : state) (sources : json) :
  cache_miss st ("watch_" ++ content_id) ->
  extract_video_sources content_id (upstream_calls st) = Return sources ->
  (get_video_sources content_id st).1 = Return sources.
Proof.
  intros Hm Hv.
  change (get_video_sources content_id) with (handle (ApiWatch content_id)).
  now rewrite (handle_miss _ (ApiWatch content_id) st sources Hm Hv).
Qed.

Lemma watch_returns_resolver_order_witness :
  let candidates :=
    JList [Spec.candidate "SD" true 500; Spec.candidate "HD" false 300;
           Spec.candidate "HD" true 200] in
  (@get_video_sources (always (Return candidates)) "c1" cold).1
  = Return candidates.
Proof.
  intros candidates.
  exact (watch_returns_resolver_order (always (Return candidates)) "c1"
           cold candidates (cold_miss _) eq_refl).
Defined.

(** *** Requests that overlap *)









End CacheClaims.

Module KeyClaims.
Import Main MainFacts CacheClaims.

Lemma string_app_inv_tail (a b t : string) : a ++ t = b ++ t -> a = b.
Proof.
  intros H.
  assert (Happ : forall x y,
            list_ascii_of_string (x ++ y)
            = (list_ascii_of_string x ++ list_ascii_of_string y)%list).
  { intros x y. induction x as [ | c x IH]; [reflexivity | ].
    cbn [String.append list_ascii_of_string]. now rewrite IH. }
  apply (f_equal list_ascii_of_string) in H. rewrite !Happ in H.
  apply app_inv_tail in H.
  rewrite <- (string_of_list_ascii_of_string a),
          <- (string_of_list_ascii_of_string b).
  now rewrite H.
Qed.

(** C2 as stated fails: [" Batman "] and ["batman"] have the same
    normalized query but different cache keys, so after a search for
    ["batman"] a search for [" Batman "] on the same page misses the
    cache and calls the scraper again. *)
Lemma search_key_keeps_case_and_spaces :
  Spec.normalized_query " Batman " = Spec.normalized_query "batman"
  /\ cache_key (ApiSearch {| query := " Batman "; page := Some 1 |})
     <> cache_key (ApiSearch {| query := "batman"; page := Some 1 |})
  /\ (let scraper := placeholder in
      let first :=
        search_content {| query := "batman"; page := Some 1 |} cold in
      let second :=
        search_content {| query := " Batman "; page := Some 1 |} first.2 in
      upstream_calls second.2
      = [PerformSearch "batman" (Some 1); PerformSearch " Batman " (Some 1)]).
Proof.
  split; [reflexivity | split; [discriminate | reflexivity]].
Qed.

(** C2 (amended). [search_content] reads and writes the cache under
    the key ["search_" + query + "_" + str(page)], built from the query
    exactly as given (not trimmed, not lower-cased); for one page, two
    queries have the same key exactly when they are the same string. *)
Theorem search_key_is_the_query_as_given (scraper : Scraper)
    (q q' : string) (p : option Z) (st : state) :
  search_content {| query := q; page := p |} st
  = read_through ("search_" ++ q ++ "_" ++ Py.str_of_opt_int p)
      (PerformSearch q p) 1800 false st
  /\ (cache_key (ApiSearch {| query := q; page := p |})
      = cache_key (ApiSearch {| query := q'; page := p |})
      <-> q = q').
Proof.
  split.
  - exact (handle_read_through (ApiSearch {| query := q; page := p |}) st).
  - split; [ | now intros ->].
    cbn [cache_key query page]. intros H.
    injection H as H. now apply string_app_inv_tail in H.
Qed.

End KeyClaims.

Module ModelClaims.
Import Models.

Lemma validate_year_accepts (current_year y : Z) :
  validate_year current_year (Some y) = Accept (Some y)
  <-> y = 0 \/ 1900 <= y <= current_year + 1.
Proof.
  unfold validate_year, Py.int_truthy.
  destruct (y =? 0) eqn:E0; cbn [negb andb].
  - apply Z.eqb_eq in E0. split; auto.
  - apply Z.eqb_neq in E0.
    destruct (y <? 1900) eqn:E1; cbn [orb].
    + apply Z.ltb_lt in E1. split; [discriminate | lia].
    + apply Z.ltb_ge in E1. destruct (y >? current_year + 1) eqn:E2.
      * apply Z.gtb_lt in E2. split; [discriminate | lia].
      * rewrite Z.gtb_ltb in E2. apply Z.ltb_ge in E2. split; auto.
Qed.

(** A year other than 0 outside the range fails, with an error located
    at [year]. *)
Lemma nonzero_year_out_of_range (current_year y : Z) (raw : MovieBase_input) :
  in_year raw = Some y -> y <> 0 ->
  y < 1900 \/ current_year + 1 < y ->
  exists errs, MovieBase_new current_year raw = Invalid errs
               /\ In (Error "year" "Invalid year") errs.
Proof.
  intros Hy H0 Hr. unfold MovieBase_new. rewrite Hy.
  assert (E : validate_year current_year (Some y) = ValueError "Invalid year").
  { unfold validate_year, Py.int_truthy.
    apply Z.eqb_neq in H0. rewrite H0. cbn [negb andb].
    destruct Hr as [Hr | Hr].
    - apply Z.ltb_lt in Hr. now rewrite Hr.
    - apply Z.gtb_lt in Hr. rewrite Hr. now rewrite orb_true_r. }
  rewrite E. cbn [located].
  destruct (in_id raw), (in_title raw),
           (opt_float_between 0 10 (in_rating raw));
    cbn; eexists; (split; [reflexivity | ]); cbn; auto 6.
Qed.

(** C6, the failing input: a movie with [year=0] passes validation,
    whatever the current year, because [validate_year] tests [v and ...]
    and [0] is false in Python. *)
Theorem year_zero_is_accepted (current_year : Z) :
  MovieBase_new current_year
    {| in_id := Some "m1"; in_title := Some "T"; in_original_title := None;
       in_description := None; in_year := Some 0; in_duration := None;
       in_rating := None |}
  = Valid {| movie_id := "m1"; movie_title := "T";
             movie_original_title := None; movie_description := None;
             movie_year := Some 0; movie_duration := None;
             movie_rating := None |}.
Proof. reflexivity. Qed.

(** C7 as stated fails: a movie whose title is the empty string is
    constructed without error and keeps the empty title. *)
Lemma empty_movie_title_is_accepted :
  MovieBase_new 2025
    {| in_id := Some "m1"; in_title := Some EmptyString;
       in_original_title := None;
       in_description := None; in_year := None; in_duration := None;
       in_rating := None |}
  = Valid {| movie_id := "m1"; movie_title := EmptyString;
             movie_original_title := None; movie_description := None;
             movie_year := None; movie_duration := None;
             movie_rating := None |}.
Proof. reflexivity. Qed.

(** C7 (amended). A missing title makes the construction of a movie
    fail with a "field required" error located at [title].  A title that
    is present is never the cause of an error and is stored unchanged,
    whether it is empty or not. *)
Theorem movie_title_is_required_only (current_year : Z)
    (raw : MovieBase_input) :
  match in_title raw with
  | None =>
      exists errs, MovieBase_new current_year raw = Invalid errs
                   /\ In (Error "title" "field required") errs
  | Some t =>
      match MovieBase_new current_year raw with
      | Valid m => movie_title m = t
      | Invalid errs => forall e, In e errs -> loc e <> "title"
      end
  end.
Proof.
  unfold MovieBase_new.
  destruct (in_title raw) as [t | ], (in_id raw) as [i | ],
           (validate_year current_year (in_year raw)) as [y | ym],
           (opt_float_between 0 10 (in_rating raw)) as [x | xm];
    cbn; try reflexivity;
    try (eexists; split; [reflexivity | cbn; auto 6]; fail);
    intros e He; repeat (destruct He as [<- | He]; [discriminate | ]);
    destruct He.
Qed.

(** The sibling check: an episode title that is empty or blank fails. *)
Lemma blank_episode_title_is_rejected (raw : EpisodeBase_input) (t : string) :
  in_episode_title raw = Some t -> Py.strip t = EmptyString ->
  exists errs, EpisodeBase_new raw = Invalid errs
               /\ In (Error "title" "Title cannot be empty") errs.
Proof.
  intros Ht Hs. unfold EpisodeBase_new. rewrite Ht. cbn [required and_then].
  unfold validate_title. rewrite Hs. rewrite orb_true_r. cbn [located].
  destruct (in_episode_id raw), (in_episode_number raw) as [n | ],
           (in_season_number raw) as [k | ]; cbn;
    repeat match goal with
           | |- context [int_ge ?a ?b] => destruct (int_ge a b); cbn
           end;
    eexists; (split; [reflexivity | ]); cbn; auto 6.
Qed.

(** C5 as stated fails: a source given with [is_direct=True] and
    [requires_proxy=True] is constructed without error and keeps both
    flags. *)
Lemma proxied_direct_source_is_accepted :
  exists vs,
    VideoSource_new
      {| in_url := Some "https://cdn.example/v.mp4"; in_quality := None;
         in_type := None; in_size := None; in_bitrate := None;
         in_width := None; in_height := None;
         in_is_direct := Some true; in_requires_proxy := Some true |}
    = Valid vs
    /\ requires_proxy vs = true /\ is_direct vs = true.
Proof. eexists. split; [reflexivity | split; reflexivity]. Qed.

(** C5 (amended). A successfully constructed [VideoSource] carries
    [is_direct] and [requires_proxy] exactly as given in the input, with
    [is_direct] defaulting to true and [requires_proxy] to false; the
    only invariant validation enforces is that the url starts with
    ["http://"], ["https://"] or ["//"]. *)
Theorem video_source_flags_are_as_given (raw : VideoSource_input)
    (vs : VideoSource) :
  VideoSource_new raw = Valid vs ->
  is_direct vs = with_default true (in_is_direct raw)
  /\ requires_proxy vs = with_default false (in_requires_proxy raw)
  /\ Py.startswith_any (url vs) ["http://"; "https://"; "//"] = true.
Proof.
  unfold VideoSource_new.
  destruct (in_url raw) as [u | ]; cbn [required and_then].
  - unfold validate_url.
    destruct (Py.startswith_any u _) eqn:Eu;
      [ rewrite orb_false_r | rewrite orb_true_r ]; cbn [negb].
    + destruct (negb (Py.str_truthy u)); cbn [located];
        destruct (in_quality raw) as [q | ]; cbn;
        try (destruct (enum_member q); cbn); intros [= <-]; cbn; auto.
    + cbn [located]. destruct (in_quality raw) as [q | ]; cbn;
        try (destruct (enum_member q); cbn); discriminate.
  - destruct (in_quality raw) as [q | ]; cbn;
      try (destruct (enum_member q); cbn); discriminate.
Qed.

Lemma video_source_flags_are_as_given_witness :
  let raw :=
    {| in_url := Some "//cdn.example/v.mp4"; in_quality := Some "FHD";
       in_type := None; in_size := None; in_bitrate := Some 2500;
       in_width := None; in_height := None;
       in_is_direct := None; in_requires_proxy := None |} in
  let vs :=
    {| url := "//cdn.example/v.mp4"; quality := FHD; type := "video/mp4";
       size := None; bitrate := Some 2500; width := None; height := None;
       is_direct := true; requires_proxy := false |} in
  VideoSource_new raw = Valid vs
  /\ is_direct vs = true /\ requires_proxy vs = false
  /\ Py.startswith_any (url vs) ["http://"; "https://"; "//"] = true.
Proof.
  intros raw vs. split; [reflexivity | ].
  exact (video_source_flags_are_as_given raw vs eq_refl).
Defined.

End ModelClaims.

Module PyFacts.

Lemma lstrip_head (s : string) :
  match Py.lstrip s with
  | EmptyString => True
  | String c _ => Py.isspace c = false
  end.
Proof.
  induction s as [ | c s IH]; [exact I | ]. cbn [Py.lstrip].
  destruct (Py.isspace c) eqn:E; [exact IH | exact E].
Qed.

Lemma lstrip_id (c : ascii) (r : string) :
  Py.isspace c = false -> Py.lstrip (String c r) = String c r.
Proof. intros E. cbn [Py.lstrip]. now rewrite E. Qed.

Lemma lstrip_blank (s : string) :
  Py.lstrip s = EmptyString <-> Py.blank s = true.
Proof.
  induction s as [ | c s IH]; [easy | ]. cbn [Py.lstrip Py.blank].
  destruct (Py.isspace c); [exact IH | easy].
Qed.

Lemma rstrip_empty (s : string) :
  Py.rstrip s = EmptyString <-> Py.blank s = true.
Proof.
  induction s as [ | c s IH]; [easy | ]. cbn [Py.rstrip Py.blank].
  destruct (Py.rstrip s) as [ | a t].
  - destruct (Py.isspace c); cbn [andb].
    + split; [intros _; now apply IH | reflexivity].
    + easy.
  - destruct (Py.isspace c); cbn [andb]; [ | easy].
    split; [discriminate | ]. intros Hb. apply IH in Hb. discriminate.
Qed.

(** Right-stripping keeps the first character of a string that does not
    begin with whitespace. *)
Lemma rstrip_cons (c : ascii) (r : string) :
  Py.isspace c = false -> exists t, Py.rstrip (String c r) = String c t.
Proof.
  intros E. cbn [Py.rstrip]. destruct (Py.rstrip r) as [ | a t].
  - rewrite E. now exists EmptyString.
  - now exists (String a t).
Qed.

Lemma rstrip_last (s : string) :
  match Py.rstrip s with
  | EmptyString => True
  | String c t => Py.isspace (Py.last_char c t) = false
  end.
Proof.
  induction s as [ | c s IH]; [exact I | ]. cbn [Py.rstrip].
  destruct (Py.rstrip s) as [ | a t].
  - destruct (Py.isspace c) eqn:E; [exact I | exact E].
  - exact IH.
Qed.

(** What [strip] returns is trimmed. *)
Lemma strip_trimmed (s : string) : Py.trimmed (Py.strip s) = true.
Proof.
  unfold Py.strip. pose proof (lstrip_head s) as Hh.
  destruct (Py.lstrip s) as [ | c r]; [reflexivity | ].
  destruct (rstrip_cons c r Hh) as [t Et].
  pose proof (rstrip_last (String c r)) as Hl. rewrite Et in *.
  cbn [Py.trimmed]. now rewrite Hh, Hl.
Qed.

Lemma rstrip_step (c a : ascii) (t : string) :
  Py.rstrip (String c (String a t))
  = match Py.rstrip (String a t) with
    | EmptyString => if Py.isspace c then EmptyString else String c EmptyString
    | r' => String c r'
    end.
Proof. reflexivity. Qed.

Lemma rstrip_id (r : string) :
  forall a, Py.isspace (Py.last_char a r) = false ->
            Py.rstrip (String a r) = String a r.
Proof.
  induction r as [ | b r IH]; intros a Hl.
  - cbn in *. now rewrite Hl.
  - cbn [Py.last_char] in Hl. now rewrite rstrip_step, (IH b Hl).
Qed.

(** A trimmed string is left alone by [strip]. *)
Lemma strip_of_trimmed (s : string) : Py.trimmed s = true -> Py.strip s = s.
Proof.
  destruct s as [ | c r]; [reflexivity | ]. cbn [Py.trimmed].
  intros [Hc Hl]%andb_prop. apply negb_true_iff in Hc, Hl.
  unfold Py.strip. now rewrite (lstrip_id c r Hc), rstrip_id.
Qed.

Lemma strip_idem (s : string) : Py.strip (Py.strip s) = Py.strip s.
Proof. apply strip_of_trimmed, strip_trimmed. Qed.

(** [strip] leaves nothing exactly when the string is blank. *)
Lemma strip_empty (s : string) :
  Py.strip s = EmptyString <-> Py.blank s = true.
Proof.
  unfold Py.strip. rewrite rstrip_empty.
  pose proof (lstrip_head s) as Hh. pose proof (lstrip_blank s) as Hb.
  destruct (Py.lstrip s) as [ | c r].
  - split; [intros _; now apply Hb | reflexivity].
  - cbn [Py.blank]. rewrite Hh. cbn [andb].
    split; [discriminate | ]. intros H. apply Hb in H. discriminate.
Qed.

End PyFacts.

Module KeyFacts.
Import Main.

Lemma contains_app (c : ascii) (a b : string) :
  Py.contains c (a ++ b) = Py.contains c a || Py.contains c b.
Proof.
  induction a as [ | x a IH]; [reflexivity | ].
  cbn [String.append Py.contains]. now rewrite IH, orb_assoc.
Qed.

Lemma uint_no_underscore (d : Decimal.uint) :
  Py.contains "_" (NilEmpty.string_of_uint d) = false.
Proof. induction d; cbn; trivial. Qed.

Lemma str_of_opt_int_no_underscore (p : option Z) :
  Py.contains "_" (Py.str_of_opt_int p) = false.
Proof.
  destruct p as [z | ]; [ | reflexivity]. cbn [Py.str_of_opt_int].
  destruct (JsonFacts.str_of_int_cases z) as (d & _ & [[_ ->] | [_ ->]]);
    [ | cbn [Py.contains]; cbn [Ascii.eqb Bool.eqb orb] ];
    apply uint_no_underscore.
Qed.

Lemma str_of_opt_int_inj (a b : option Z) :
  Py.str_of_opt_int a = Py.str_of_opt_int b -> a = b.
Proof.
  assert (Hnone : forall z, Py.str_of_int z <> "None").
  { intros z E.
    destruct (JsonFacts.str_of_int_head z EmptyString) as (c & t & Ec & Hc).
    rewrite JsonFacts.string_app_empty_r, E in Ec. injection Ec as <- _.
    destruct Hc as [Hc | Hc]; [now apply Hc | discriminate Hc]. }
  destruct a as [x | ], b as [y | ]; cbn [Py.str_of_opt_int]; intros E.
  - f_equal. now apply JsonFacts.str_of_int_inj.
  - now apply Hnone in E.
  - symmetry in E. now apply Hnone in E.
  - reflexivity.
Qed.

(** A text cut at its last underscore is cut in one way only. *)
Lemma cut_at_last_underscore (q1 q2 s1 s2 : string) :
  Py.contains "_" s1 = false -> Py.contains "_" s2 = false ->
  q1 ++ "_" ++ s1 = q2 ++ "_" ++ s2 -> q1 = q2 /\ s1 = s2.
Proof.
  intros H1 H2. revert q2.
  induction q1 as [ | c q1 IH]; intros [ | c' q2] E; cbn in E.
  - injection E as E. auto.
  - injection E as <- E. rewrite E, contains_app in H1.
    cbn in H1. now rewrite orb_true_r in H1.
  - injection E as -> E. rewrite <- E, contains_app in H2.
    cbn in H2. now rewrite orb_true_r in H2.
  - injection E as <- E. destruct (IH _ E) as [-> ->]. auto.
Qed.

(** Two requests with the same cache key are the same request. *)
Lemma cache_key_inj (r1 r2 : request) :
  cache_key r1 = cache_key r2 -> r1 = r2.
Proof.
  destruct r1 as [p1 | [q1 p1] | i1 | i1 | i1 | c1 p1],
           r2 as [p2 | [q2 p2] | i2 | i2 | i2 | c2 p2];
    cbn [cache_key query page]; intros E; cbn in E; try discriminate E.
  - injection E as E. f_equal. now apply JsonFacts.str_of_int_inj.
  - injection E as E.
    destruct (cut_at_last_underscore _ _ _ _
                (str_of_opt_int_no_underscore p1)
                (str_of_opt_int_no_underscore p2) E) as [-> Ep].
    now apply str_of_opt_int_inj in Ep as ->.
  - now injection E as ->.
  - now injection E as ->.
  - now injection E as ->.
  - injection E as E.
    destruct (cut_at_last_underscore c1 c2 (Py.str_of_int p1)
                (Py.str_of_int p2)
                (str_of_opt_int_no_underscore (Some p1))
                (str_of_opt_int_no_underscore (Some p2)) E) as [-> Ep].
    now apply JsonFacts.str_of_int_inj in Ep as ->.
Qed.

End KeyFacts.

Module CacheExtras.
Import Main MainFacts CacheClaims KeyFacts.

(** X1. Two different requests never share a cache key: not across
    routes, not across pages, and not through an underscore in a query or
    a category name. *)
Theorem distinct_requests_have_distinct_keys (r1 r2 : request) :
  r1 <> r2 -> cache_key r1 <> cache_key r2.
Proof. intros Hne E. now apply Hne, cache_key_inj. Qed.

Lemma distinct_requests_have_distinct_keys_witness :
  cache_key (ApiSearch {| query := "a_1"; page := Some 2 |})
  <> cache_key (ApiSearch {| query := "a"; page := Some 12 |})
  /\ cache_key (ApiMovie "7") <> cache_key (ApiSeries "7").
Proof.
  split.
  - apply distinct_requests_have_distinct_keys. discriminate.
  - apply distinct_requests_have_distinct_keys. discriminate.
Defined.

(** X2. When the cache misses and the scraper coroutine raises, the
    handler raises the same exception; nothing is stored, and the call is
    the only thing the state records. *)
Theorem scraper_error_propagates (scraper : Scraper) (r : request)
    (st : state) (e : exn) :
  cache_miss st (cache_key r) ->
  coroutine (resolver r) (upstream_calls st) = Raise e ->
  handle r st
  = (Raise e,
     State (redis_db st) (clock st) (upstream_calls st ++ [resolver r])).
Proof.
  intros Hm He. now rewrite handle_read_through, read_through_miss, He.
Qed.

Lemma scraper_error_propagates_witness :
  @handle (always (Raise (UpstreamError "timeout"))) (ApiHome 1) cold
  = (Raise (UpstreamError "timeout"), State ∅ 0 [GetHomeContent 1]).
Proof.
  exact (scraper_error_propagates (always (Raise (UpstreamError "timeout")))
           (ApiHome 1) cold _ (cold_miss _) eq_refl).
Defined.

(** What a request does to the database: nothing, or one [setex] at the
    key of the request. *)
Lemma handle_db (scraper : Scraper) (r : request) (st : state) :
  redis_db (handle r st).2 = redis_db st
  \/ exists v,
       cache_miss st (cache_key r)
       /\ coroutine (resolver r) (upstream_calls st) = Return v
       /\ setex_guarded r && negb (truthy v) = false
       /\ redis_db (handle r st).2
          = Redis.setex (clock st) (cache_key r) (setex_seconds r) (dumps v)
              (redis_db st).
Proof.
  rewrite handle_read_through.
  unfold read_through, bind, redis_client_get, json_loads, await, cache_miss.
  destruct (Py.opt_str_truthy _) eqn:Hc.
  - left. destruct (Redis.get _ _ _) as [s | ]; [destruct (loads s) | ];
      reflexivity.
  - destruct (coroutine _ _) as [v | e] eqn:Hv; [ | left; reflexivity].
    destruct (setex_guarded r && negb (truthy v)) eqn:Hg;
      [left; reflexivity | ].
    right. exists v. auto.
Qed.

Lemma handle_other_key (scraper : Scraper) (r : request) (st : state)
    (k : string) :
  k <> cache_key r -> redis_db (handle r st).2 !! k = redis_db st !! k.
Proof.
  intros Hk. destruct (handle_db scraper r st) as [-> | (v & _ & _ & _ & ->)];
    [reflexivity | ].
  unfold Redis.setex. now rewrite lookup_insert_ne.
Qed.

(** X3. Handling a request leaves what the cache holds for every other
    request as it was, at every instant. *)
Theorem other_requests_are_untouched (scraper : Scraper) (r r' : request)
    (st : state) (t : Z) :
  r <> r' ->
  Redis.get t (redis_db (handle r st).2) (cache_key r')
  = Redis.get t (redis_db st) (cache_key r').
Proof.
  intros Hne. unfold Redis.get. rewrite handle_other_key; [reflexivity | ].
  intros E. now apply Hne, cache_key_inj.
Qed.

Lemma other_requests_are_untouched_witness :
  let scraper := placeholder in
  Redis.get 100 (redis_db (handle (ApiHome 2) (handle (ApiHome 1) cold).2).2)
    (cache_key (ApiHome 1))
  = Redis.get 100 (redis_db (handle (ApiHome 1) cold).2)
      (cache_key (ApiHome 1)).
Proof.
  intros scraper.
  apply (other_requests_are_untouched scraper (ApiHome 2) (ApiHome 1)).
  discriminate.
Defined.

(** What can be read from a well-formed database is a [json.dumps]
    text. *)
Lemma cached_entry_decodes (db : gmap string Redis.entry) (t : Z)
    (k s : string) :
  well_formed db -> Redis.get t db k = Some s -> exists v, s = dumps v.
Proof.
  intros Hwf. unfold Redis.get.
  destruct (db !! k) as [e | ] eqn:He; [ | discriminate].
  destruct (t <? Redis.expires_at e); [ | discriminate].
  intros [= <-]. exact (Hwf _ _ He).
Qed.

(** X4. In every state the service can reach, [json.loads] of a
    cached text does not raise: whatever [redis_client.get] returns for
    a key is the [json.dumps] text of some value, it is not the empty
    string, and [json.loads] gives that value back. *)
Theorem cached_text_always_decodes (scraper : Scraper) (st : state)
    (key s : string) :
  reachable st ->
  Redis.get (clock st) (redis_db st) key = Some s ->
  exists v,
    s = json_dumps v
    /\ Py.opt_str_truthy (Some s) = true
    /\ json_loads (Some s) st = (Return v, st).
Proof.
  intros Hst Hs. apply reachable_well_formed in Hst.
  destruct (cached_entry_decodes _ _ _ _ Hst Hs) as [v ->].
  exists v. split; [reflexivity | split].
  - apply JsonFacts.dumps_truthy.
  - unfold json_loads. now rewrite JsonFacts.loads_dumps.
Qed.

Lemma cached_text_always_decodes_witness :
  let scraper := placeholder in
  let v := JDict [("sections", JList []); ("featured", JList [])] in
  let st := (handle (ApiHome 1) cold).2 in
  exists v',
    dumps v = json_dumps v'
    /\ Py.opt_str_truthy (Some (dumps v)) = true
    /\ json_loads (Some (dumps v)) st = (Return v', st).
Proof.
  intros scraper v st.
  apply (cached_text_always_decodes scraper st "home_page_1" (dumps v)).
  - apply reachable_handle, reachable_cold.
  - vm_compute. reflexivity.
Defined.

(** X5. Once a request has stored its result (always for home, search
    and category; for a truthy result otherwise), the same request
    repeated any number of times within the TTL of that first store gets
    the same value each time, and only time moves: no scraper call, no
    write, and the expiry is not pushed back by the hits. *)
Theorem repeated_requests_are_served_from_cache (scraper : Scraper)
    (r : request) (st : state) (v : json) (delays : list Z) :
  cache_miss st (cache_key r) ->
  coroutine (resolver r) (upstream_calls st) = Return v ->
  setex_guarded r = false \/ truthy v = true ->
  Forall (fun d => 0 <= d) delays ->
  total delays < setex_seconds r ->
  serve r delays (handle r st).2
  = (map (fun _ => Return v) delays, tick (total delays) (handle r st).2).
Proof.
  intros Hm Hv Hw Hpos Ht. rewrite (handle_miss _ r st v Hm Hv).
  assert (Hg : setex_guarded r && negb (truthy v) = false).
  { destruct Hw as [-> | ->]; [reflexivity | apply andb_false_r]. }
  rewrite Hg. cbn [snd].
  apply (serve_hits _ r (Redis.Entry (dumps v) (clock st + setex_seconds r))
           v delays eq_refl Hpos).
  - cbn. unfold Redis.setex. apply lookup_insert_eq.
  - cbn. lia.
Qed.

Lemma repeated_requests_are_served_from_cache_witness :
  let scraper := placeholder in
  let v := JDict [("items", JList []); ("total_pages", JInt 0)] in
  let st1 := (handle (ApiCategory "action" 2) cold).2 in
  serve (ApiCategory "action" 2) [10; 0; 3000] st1
  = ([Return v; Return v; Return v], tick 3010 st1).
Proof.
  intros scraper v st1.
  apply (repeated_requests_are_served_from_cache scraper
           (ApiCategory "action" 2) cold v [10; 0; 3000]).
  - apply cold_miss.
  - reflexivity.
  - left. reflexivity.
  - repeat constructor; lia.
  - vm_compute. reflexivity.
Defined.

(** X6. A request repeated more than its TTL after a miss calls the
    scraper again: whatever the first call stored has expired. *)
Theorem expired_entry_is_resolved_again (scraper : Scraper) (r : request)
    (st : state) (d : Z) :
  cache_miss st (cache_key r) ->
  setex_seconds r < d ->
  upstream_calls (handle r (tick d (handle r st).2)).2
  = (upstream_calls st ++ [resolver r; resolver r])%list.
Proof.
  intros Hm Hd.
  assert (Hm' : cache_miss (tick d (handle r st).2) (cache_key r)).
  { destruct (handle_db scraper r st) as [E | (v & _ & _ & _ & E)];
      unfold cache_miss; cbn [tick redis_db clock]; rewrite E.
    - destruct (handle_clock_calls r st) as [-> _].
      apply RedisFacts.get_falsy_later; [ | exact Hm].
      destruct r; cbn in Hd; lia.
    - destruct (handle_clock_calls r st) as [-> _].
      rewrite RedisFacts.get_setex_same.
      destruct (clock st + d <? clock st + setex_seconds r) eqn:El;
        [apply Z.ltb_lt in El; lia | reflexivity]. }
  rewrite (handle_miss_calls _ r _ Hm'). cbn [tick upstream_calls].
  rewrite (handle_miss_calls _ r _ Hm). now rewrite <- app_assoc.
Qed.

Lemma expired_entry_is_resolved_again_witness :
  let scraper := placeholder in
  upstream_calls
    (handle (ApiHome 1) (tick 3601 (handle (ApiHome 1) cold).2)).2
  = [GetHomeContent 1; GetHomeContent 1].
Proof.
  intros scraper.
  apply (expired_entry_is_resolved_again scraper (ApiHome 1) cold 3601).
  - apply cold_miss.
  - vm_compute. reflexivity.
Defined.

(** X7. A handler calls the scraper exactly when the cache gives nothing
    usable for its key, once, with the arguments of the request; on a hit
    it calls nothing and writes nothing. *)
Theorem scraper_is_called_exactly_on_a_miss (scraper : Scraper)
    (r : request) (st : state) :
  if Py.opt_str_truthy (Redis.get (clock st) (redis_db st) (cache_key r))
  then upstream_calls (handle r st).2 = upstream_calls st
       /\ redis_db (handle r st).2 = redis_db st
  else upstream_calls (handle r st).2
       = (upstream_calls st ++ [resolver r])%list.
Proof.
  destruct (Py.opt_str_truthy _) eqn:Hc.
  - rewrite handle_read_through.
    destruct (Redis.get _ _ _) as [s | ] eqn:Hs; [ | discriminate Hc].
    now rewrite (read_through_hit _ _ _ _ _ s Hs Hc).
  - now apply handle_miss_calls.
Qed.

(** With the placeholder scraper no movie, series or watch entry is ever
    stored. *)
Lemma placeholder_stores_no_details (st : state) :
  @reachable placeholder st ->
  forall r, setex_guarded r = true -> redis_db st !! cache_key r = None.
Proof.
  induction 1 as [ | d st Hd Hst IH | r' st Hst IH]; intros r Hr.
  - apply lookup_empty.
  - now apply IH.
  - destruct (handle_db placeholder r' st) as [-> | (v & _ & Hv & Hg & ->)];
      [now apply IH | ].
    unfold Redis.setex. rewrite lookup_insert_ne; [now apply IH | ].
    intros E. apply cache_key_inj in E as ->.
    rewrite Hr in Hg. destruct r; try discriminate Hr; cbn in Hv;
      injection Hv as <-; discriminate Hg.
Qed.

(** X8. With the placeholder scraper functions of [main.py], the movie,
    series and watch routes never find a cached entry in any reachable
    state: every such request calls the scraper, returns [None] (the
    empty list for watch) and stores nothing. *)
Theorem placeholder_details_always_resolve (r : request) (st : state) :
  @reachable placeholder st ->
  setex_guarded r = true ->
  @handle placeholder r st
  = (Return (match r with ApiWatch _ => JList [] | _ => JNull end),
     State (redis_db st) (clock st) (upstream_calls st ++ [resolver r])).
Proof.
  intros Hst Hr.
  assert (Hm : cache_miss st (cache_key r)).
  { unfold cache_miss, Redis.get.
    now rewrite (placeholder_stores_no_details st Hst r Hr). }
  destruct r; try discriminate Hr;
    now rewrite (handle_miss placeholder _ st _ Hm eq_refl).
Qed.

Lemma placeholder_details_always_resolve_witness :
  let st := (@handle placeholder (ApiSeries "s1")
               (tick 5 (@handle placeholder (ApiHome 1) cold).2)).2 in
  @handle placeholder (ApiSeries "s1") st
  = (Return JNull,
     State (redis_db st) (clock st)
       (upstream_calls st ++ [GetSeriesInfo "s1"])).
Proof.
  intros st.
  apply (placeholder_details_always_resolve (ApiSeries "s1") st);
    [ | reflexivity].
  subst st. apply reachable_handle, reachable_tick; [lia | ].
  apply reachable_handle, reachable_cold.
Defined.

(** X9. In every reachable state, the entry cached for a request
    expires no later than the TTL of its route from now, hence within
    7200 seconds: nothing is served from the cache beyond that age. *)
Theorem entries_expire_within_their_ttl (scraper : Scraper) (st : state)
    (r : request) (e : Redis.entry) :
  reachable st ->
  redis_db st !! cache_key r = Some e ->
  Redis.expires_at e <= clock st + setex_seconds r
  /\ Redis.expires_at e <= clock st + 7200.
Proof.
  intros Hst. revert r e.
  assert (Hb : forall r, 0 < setex_seconds r <= 7200)
    by (intros []; cbn; lia).
  enough (H : forall r e, redis_db st !! cache_key r = Some e ->
                          Redis.expires_at e <= clock st + setex_seconds r).
  { intros r e He. specialize (H r e He). specialize (Hb r). lia. }
  induction Hst as [ | d st Hd Hst IH | r' st Hst IH]; intros r e He.
  - cbn in He. now rewrite lookup_empty in He.
  - cbn [tick redis_db clock] in *. specialize (IH r e He). lia.
  - destruct (handle_clock_calls r' st) as [-> _].
    destruct (handle_db scraper r' st) as [E | (v & _ & _ & _ & E)];
      rewrite E in He; [now apply IH | ].
    unfold Redis.setex in He.
    destruct (decide (cache_key r' = cache_key r)) as [Ek | Ek].
    + rewrite Ek, lookup_insert_eq in He. injection He as <-.
      apply cache_key_inj in Ek as ->. cbn. lia.
    + rewrite lookup_insert_ne in He by exact Ek. now apply IH.
Qed.

Lemma entries_expire_within_their_ttl_witness :
  let scraper := placeholder in
  let st := tick 100 (handle (ApiSearch {| query := "x"; page := None |})
                        cold).2 in
  exists e,
    redis_db st !! "search_x_None" = Some e
    /\ Redis.expires_at e <= 100 + 1800.
Proof.
  intros scraper st. eexists. split; [reflexivity | ].
  match goal with
  | |- Redis.expires_at ?e <= _ =>
      apply (entries_expire_within_their_ttl scraper st
               (ApiSearch {| query := "x"; page := None |}) e)
  end.
  - apply reachable_tick; [lia | ]. apply reachable_handle, reachable_cold.
  - reflexivity.
Defined.

End CacheExtras.

Module ModelExtras.
Import Models PyFacts.
#[local] Open Scope model_scope.

(** Reading a successful construction backwards, one field at a time. *)
Lemma ap_valid {A B} (f : result (A -> B)) (x : result A) (b : B) :
  f <*> x = Valid b <-> exists g a, f = Valid g /\ x = Valid a /\ b = g a.
Proof.
  split.
  - destruct f as [g | e1], x as [a | e2]; cbn; intros [= <-]. eauto.
  - intros (g & a & -> & -> & ->). reflexivity.
Qed.

(** The errors of the earlier fields come first. *)
Lemma ap_invalid {A B} (f : result (A -> B)) (x : result A)
    (errors : list error) :
  f = Invalid errors -> exists rest, f <*> x = Invalid (errors ++ rest).
Proof.
  intros ->. destruct x as [a | e2]; cbn.
  - exists []. now rewrite app_nil_r.
  - now exists e2.
Qed.

Ltac invert_new H :=
  repeat (apply ap_valid in H;
          let g := fresh "g" in let a := fresh "a" in
          let Hx := fresh "Hx" in let Hb := fresh "Hb" in
          destruct H as (g & a & H & Hx & Hb)).

Lemma located_valid {A} (field : string) (c : checked A) (a : A) :
  located field c = Valid a <-> c = Accept a.
Proof. destruct c; cbn; split; congruence. Qed.

Lemma required_valid {A} (field : string) (given : option A) (a : A) :
  required field given = Valid a <-> given = Some a.
Proof. destruct given; cbn; split; congruence. Qed.

Lemma int_ge_accept (bound v w : Z) :
  int_ge bound v = Accept w <-> w = v /\ bound <= v.
Proof.
  unfold int_ge. destruct (bound <=? v) eqn:E.
  - apply Z.leb_le in E. split; [intros [= <-]; auto | now intros [-> _]].
  - apply Z.leb_gt in E. split; [discriminate | lia].
Qed.

Lemma optional_int_ge (field : string) (bound : Z) (given w : option Z) :
  optional field (int_ge bound) given = Valid w
  <-> w = given /\ forall v, given = Some v -> bound <= v.
Proof.
  unfold optional. destruct given as [v | ].
  - destruct (int_ge bound v) as [x | m] eqn:E.
    + apply int_ge_accept in E as [-> Hb].
      split; [intros [= <-]; split; [reflexivity | now intros ? [= <-]]
             | now intros [-> _]].
    + split; [discriminate | intros [-> H]].
      specialize (H v eq_refl).
      assert (int_ge bound v = Accept v) by now apply int_ge_accept.
      congruence.
  - split; [intros [= <-]; split; [reflexivity | discriminate]
           | now intros [-> _]].
Qed.

Lemma opt_float_between_accept (lo hi : Z) (v w : option Q) :
  opt_float_between lo hi v = Accept w
  <-> w = v /\ forall q, v = Some q -> (inject_Z lo <= q <= inject_Z hi)%Q.
Proof.
  unfold opt_float_between. destruct v as [q | ].
  - destruct (Qle_bool (inject_Z lo) q) eqn:E1; cbn [negb].
    + destruct (Qle_bool q (inject_Z hi)) eqn:E2; cbn [negb].
      * apply Qle_bool_iff in E1, E2.
        split; [intros [= <-]; split; [reflexivity | now intros ? [= <-]]
               | now intros [-> _]].
      * split; [discriminate | intros [_ H]].
        destruct (H q eq_refl) as [_ H2]. apply Qle_bool_iff in H2. congruence.
    + split; [discriminate | intros [_ H]].
      destruct (H q eq_refl) as [H1 _]. apply Qle_bool_iff in H1. congruence.
  - split; [intros [= <-]; split; [reflexivity | discriminate]
           | now intros [-> _]].
Qed.

Lemma validate_year_accept (current_year : Z) (v w : option Z) :
  validate_year current_year v = Accept w
  <-> w = v /\ forall y, v = Some y -> y = 0 \/ 1900 <= y <= current_year + 1.
Proof.
  destruct v as [y | ]; cbn [validate_year].
  - unfold Py.int_truthy.
    destruct (y =? 0) eqn:E0; cbn [negb andb].
    + apply Z.eqb_eq in E0.
      split; [intros [= <-]; split; [reflexivity | intros ? [= <-]; auto]
             | now intros [-> _]].
    + apply Z.eqb_neq in E0.
      destruct ((y <? 1900) || (y >? current_year + 1)) eqn:E.
      * split; [discriminate | intros [_ H]].
        destruct (H y eq_refl) as [? | ?]; [contradiction | ].
        apply orb_true_iff in E as [E | E];
          [apply Z.ltb_lt in E | apply Z.gtb_lt in E]; lia.
      * apply orb_false_iff in E as [E1 E2].
        apply Z.ltb_ge in E1. rewrite Z.gtb_ltb in E2. apply Z.ltb_ge in E2.
        split; [intros [= <-]; split; [reflexivity | intros ? [= <-]; auto]
               | now intros [-> _]].
  - split; [intros [= <-]; split; [reflexivity | discriminate]
           | now intros [-> _]].
Qed.

(** X10. [MovieBase(...)] succeeds exactly when [id] and [title] are
    given, the year, if given, is 0 or lies in 1900..current_year+1, and
    the rating, if given, lies in 0..10; the instance then holds every
    argument unchanged. *)
Theorem movie_base_validity (current_year : Z) (raw : MovieBase_input)
    (m : MovieBase) :
  MovieBase_new current_year raw = Valid m
  <-> in_id raw = Some (movie_id m)
      /\ in_title raw = Some (movie_title m)
      /\ movie_original_title m = in_original_title raw
      /\ movie_description m = in_description raw
      /\ movie_year m = in_year raw
      /\ movie_duration m = in_duration raw
      /\ movie_rating m = in_rating raw
      /\ (forall y, in_year raw = Some y ->
                    y = 0 \/ 1900 <= y <= current_year + 1)
      /\ (forall q, in_rating raw = Some q -> (0 <= q <= 10)%Q).
Proof.
  unfold MovieBase_new. split.
  - intros H. invert_new H. injection H as <-. subst.
    apply required_valid in Hx5, Hx4.
    injection Hx3 as <-. injection Hx2 as <-. injection Hx0 as <-.
    apply located_valid, validate_year_accept in Hx1 as [-> Hy].
    apply located_valid, opt_float_between_accept in Hx as [-> Hq].
    cbn. auto 10.
  - destruct m as [i t o d y u q]. cbn.
    intros (Hi & Ht & -> & -> & -> & -> & -> & Hy & Hq).
    rewrite Hi, Ht. cbn [required].
    assert (E1 : validate_year current_year (in_year raw)
                 = Accept (in_year raw)) by now apply validate_year_accept.
    assert (E2 : opt_float_between 0 10 (in_rating raw)
                 = Accept (in_rating raw))
      by now apply opt_float_between_accept.
    now rewrite E1, E2.
Qed.

Lemma validate_title_cases (v : string) :
  validate_title v
  = if Py.blank v then ValueError "Title cannot be empty"
    else Accept (Py.strip v).
Proof.
  unfold validate_title.
  destruct (Py.blank v) eqn:Eb.
  - apply strip_empty in Eb. rewrite Eb. cbn. now rewrite orb_true_r.
  - assert (Hs : Py.strip v <> EmptyString).
    { intros E. apply strip_empty in E. congruence. }
    destruct v as [ | c r]; [discriminate Eb | ]. cbn [Py.str_truthy negb orb].
    destruct (String.eqb_spec (Py.strip (String c r)) EmptyString);
      [contradiction | reflexivity].
Qed.

Lemma blank_strip (v : string) :
  Py.blank v = false -> Py.blank (Py.strip v) = false.
Proof.
  intros Eb. destruct (Py.blank (Py.strip v)) eqn:E; [ | reflexivity].
  apply strip_empty in E. rewrite strip_idem in E.
  apply strip_empty in E. congruence.
Qed.

(** X11. [validate_title] rejects a title that is empty or all
    whitespace; any other title is accepted as its stripped form, which is
    not empty, has no whitespace at either end, and is accepted unchanged
    when validated again. *)
Theorem episode_title_is_trimmed_or_rejected (v : string) :
  if Py.blank v
  then validate_title v = ValueError "Title cannot be empty"
  else validate_title v = Accept (Py.strip v)
       /\ Py.strip v <> EmptyString
       /\ Py.trimmed (Py.strip v) = true
       /\ validate_title (Py.strip v) = Accept (Py.strip v).
Proof.
  rewrite validate_title_cases. destruct (Py.blank v) eqn:Eb; [reflexivity | ].
  split; [reflexivity | split; [ | split; [apply strip_trimmed | ]]].
  - intros E. apply strip_empty in E. congruence.
  - now rewrite validate_title_cases, blank_strip, strip_idem.
Qed.

(** X12. Every constructed [EpisodeBase] has an episode number and a
    season number of at least 1 (the season defaulting to 1) and a title
    that is the stripped input title, not empty and without whitespace at
    either end. *)
Theorem episode_base_invariants (raw : EpisodeBase_input) (ep : EpisodeBase) :
  EpisodeBase_new raw = Valid ep ->
  1 <= episode_number ep
  /\ 1 <= season_number ep
  /\ (exists t, in_episode_title raw = Some t /\ episode_title ep = Py.strip t)
  /\ episode_title ep <> EmptyString
  /\ Py.trimmed (episode_title ep) = true
  /\ in_episode_number raw = Some (episode_number ep)
  /\ season_number ep = with_default 1 (in_season_number raw).
Proof.
  unfold EpisodeBase_new. intros H. invert_new H. injection H as <-. subst.
  cbn.
  destruct (in_episode_title raw) as [t | ]; [ | discriminate Hx3].
  cbn [required and_then] in Hx3. apply located_valid in Hx3.
  rewrite validate_title_cases in Hx3.
  destruct (Py.blank t) eqn:Eb; [discriminate Hx3 | injection Hx3 as <-].
  destruct (in_episode_number raw) as [n | ]; [ | discriminate Hx2].
  cbn [required and_then] in Hx2. apply located_valid, int_ge_accept in Hx2
    as [-> Hn].
  assert (Hs : 1 <= a1 /\ a1 = with_default 1 (in_season_number raw)).
  { destruct (in_season_number raw) as [k | ]; cbn [with_default].
    - apply located_valid, int_ge_accept in Hx1 as [-> Hk]. auto.
    - injection Hx1 as <-. split; [lia | reflexivity]. }
  destruct Hs as [Hs1 Hs2].
  repeat split; try assumption; try reflexivity.
  - now exists t.
  - intros E. apply strip_empty in E. congruence.
  - apply strip_trimmed.
Qed.

Lemma episode_base_invariants_witness :
  let raw :=
    {| in_episode_id := Some "e7"; in_episode_title := Some " The End  ";
       in_episode_number := Some 7; in_season_number := None;
       in_episode_description := None; in_episode_duration := Some 42 |} in
  let ep :=
    {| episode_id := "e7"; episode_title := "The End"; episode_number := 7;
       season_number := 1; episode_description := None;
       episode_duration := Some 42 |} in
  EpisodeBase_new raw = Valid ep
  /\ 1 <= episode_number ep /\ 1 <= season_number ep
  /\ Py.trimmed (episode_title ep) = true.
Proof.
  intros raw ep. split; [reflexivity | ].
  destruct (episode_base_invariants raw ep eq_refl)
    as (H1 & H2 & _ & _ & H3 & _).
  auto.
Defined.

Lemma validate_url_accept (u w : string) :
  validate_url u = Accept w
  <-> w = u /\ Py.startswith_any u ["http://"; "https://"; "//"] = true.
Proof.
  unfold validate_url.
  destruct (Py.startswith_any u _) eqn:Eu; cbn [negb].
  - destruct u as [ | c r]; [discriminate Eu | ]. cbn.
    split; [intros [= <-]; auto | now intros [-> _]].
  - rewrite orb_true_r. split; [discriminate | now intros [_ ?]].
Qed.

Lemma validate_language_accept (v w : string) :
  validate_language v = Accept w <-> w = v /\ In v valid_languages.
Proof.
  unfold validate_language.
  destruct (existsb (String.eqb v) valid_languages) eqn:E; cbn [negb].
  - apply existsb_exists in E as (x & Hin & Hx).
    apply String.eqb_eq in Hx as <-.
    split; [intros [= <-]; auto | now intros [-> _]].
  - split; [discriminate | intros [_ Hin]].
    assert (existsb (String.eqb v) valid_languages = true).
    { apply existsb_exists. exists v. split; [exact Hin | ].
      apply String.eqb_refl. }
    congruence.
Qed.

(** A constructed source has a url of one of the three shapes. *)
Lemma video_source_new_url (raw : VideoSource_input) (vs : VideoSource) :
  VideoSource_new raw = Valid vs ->
  Py.startswith_any (url vs) ["http://"; "https://"; "//"] = true.
Proof.
  unfold VideoSource_new. intros H. invert_new H. injection H as <-. subst.
  cbn. destruct (in_url raw) as [u | ]; [ | discriminate Hx7].
  cbn [required and_then] in Hx7.
  now apply located_valid, validate_url_accept in Hx7 as [-> Hu].
Qed.

(** A constructed subtitle has a language of the list. *)
Lemma subtitle_new_language (raw : Subtitle_input) (sb : Subtitle) :
  Subtitle_new raw = Valid sb -> In (subtitle_language sb) valid_languages.
Proof.
  unfold Subtitle_new. intros H. invert_new H. injection H as <-. subst.
  cbn. destruct (in_subtitle_language raw) as [v | ]; [ | discriminate Hx2].
  cbn [required and_then] in Hx2.
  now apply located_valid, validate_language_accept in Hx2 as [-> Hin].
Qed.

(** X13. [VideoSource(...)] succeeds exactly when the url is given and
    starts with ["http://"], ["https://"] or ["//"], and the quality, if
    given, is one of SD, HD, FHD, UHD; the instance then holds the
    arguments unchanged, with the defaults HD, ["video/mp4"], direct and
    not proxied for what was not given. *)
Theorem video_source_validity (raw : VideoSource_input) (vs : VideoSource) :
  VideoSource_new raw = Valid vs
  <-> in_url raw = Some (url vs)
      /\ Py.startswith_any (url vs) ["http://"; "https://"; "//"] = true
      /\ match in_quality raw with
         | Some v => Quality_of_value v = Some (quality vs)
         | None => quality vs = HD
         end
      /\ type vs = with_default "video/mp4" (in_type raw)
      /\ size vs = in_size raw
      /\ bitrate vs = in_bitrate raw
      /\ width vs = in_width raw
      /\ height vs = in_height raw
      /\ is_direct vs = with_default true (in_is_direct raw)
      /\ requires_proxy vs = with_default false (in_requires_proxy raw).
Proof.
  pose proof validate_url_accept as Hurl.
  unfold VideoSource_new. split.
  - intros H. invert_new H. injection H as <-. subst. cbn.
    destruct (in_url raw) as [u | ]; [ | discriminate Hx7].
    cbn [required and_then] in Hx7. apply located_valid, Hurl in Hx7 as [-> Hu].
    injection Hx5 as <-. injection Hx4 as <-. injection Hx3 as <-.
    injection Hx2 as <-. injection Hx1 as <-. injection Hx0 as <-.
    injection Hx as <-.
    repeat split; try assumption; try reflexivity.
    destruct (in_quality raw) as [v | ].
    + apply located_valid in Hx6. unfold enum_member in Hx6.
      destruct (Quality_of_value v); [now injection Hx6 as -> | discriminate].
    + now injection Hx6 as <-.
  - destruct vs as [u q t s b w h d p]. cbn.
    intros (Hu & Hp & Hq & -> & -> & -> & -> & -> & -> & ->).
    rewrite Hu. cbn [required and_then].
    assert (E : validate_url u = Accept u) by now apply Hurl.
    rewrite E. cbn [located].
    destruct (in_quality raw) as [v | ].
    + unfold enum_member. now rewrite Hq.
    + now rewrite Hq.
Qed.

Lemma validate_year_end_accept (v w : option Z) (start : option Z) :
  validate_year_end v (Some start) = Accept w
  <-> w = v
      /\ forall s e, start = Some s -> v = Some e -> s <> 0 -> e <> 0 ->
                     s <= e.
Proof.
  unfold validate_year_end.
  destruct start as [s | ], v as [e | ];
    try (split; [intros [= <-]; split; [reflexivity | intros; discriminate]
                | now intros [-> _]]).
  unfold Py.int_truthy.
  destruct (e =? 0) eqn:Ee; cbn [negb andb].
  { apply Z.eqb_eq in Ee.
    split; [intros [= <-]; split; [reflexivity | ] | now intros [-> _]].
    intros ? ? [= <-] [= <-] _ He. contradiction. }
  destruct (s =? 0) eqn:Es; cbn [negb andb].
  { apply Z.eqb_eq in Es.
    split; [intros [= <-]; split; [reflexivity | ] | now intros [-> _]].
    intros ? ? [= <-] [= <-] Hs _. contradiction. }
  apply Z.eqb_neq in Ee, Es.
  destruct (e <? s) eqn:El.
  - apply Z.ltb_lt in El. split; [discriminate | intros [_ H]].
    specialize (H s e eq_refl eq_refl Es Ee). lia.
  - apply Z.ltb_ge in El.
    split; [intros [= <-]; split; [reflexivity | ] | now intros [-> _]].
    now intros ? ? [= <-] [= <-] _ _.
Qed.

(** X14. Every constructed [SeriesBase] whose start and end years are
    both given and both non-zero has its end year not before its start
    year; its season and episode counts, when given, are at least 1, and
    its rating, when given, lies in 0..10. *)
Theorem series_base_invariants (raw : SeriesBase_input) (sr : SeriesBase) :
  SeriesBase_new raw = Valid sr ->
  (forall s e, year_start sr = Some s -> year_end sr = Some e ->
               s <> 0 -> e <> 0 -> s <= e)
  /\ (forall n, total_seasons sr = Some n -> 1 <= n)
  /\ (forall n, total_episodes sr = Some n -> 1 <= n)
  /\ (forall q, series_rating sr = Some q -> (0 <= q <= 10)%Q)
  /\ year_start sr = in_year_start raw
  /\ year_end sr = in_year_end raw.
Proof.
  unfold SeriesBase_new. intros H. invert_new H. injection H as <-. subst.
  cbn.
  injection Hx3 as <-.
  apply located_valid, validate_year_end_accept in Hx2 as [-> Hy].
  apply located_valid, opt_float_between_accept in Hx1 as [-> Hq].
  apply optional_int_ge in Hx0 as [-> Hs], Hx as [-> He].
  repeat split; auto; now apply Hq.
Qed.

Lemma series_base_invariants_witness :
  let raw :=
    {| in_series_id := Some "s1"; in_series_title := Some "Dark";
       in_series_original_title := None; in_series_description := None;
       in_year_start := Some 2017; in_year_end := Some 2020;
       in_series_rating := Some (87 # 10); in_total_seasons := Some 3;
       in_total_episodes := Some 26 |} in
  exists sr,
    SeriesBase_new raw = Valid sr
    /\ (forall s e, year_start sr = Some s -> year_end sr = Some e ->
                    s <> 0 -> e <> 0 -> s <= e)
    /\ (forall n, total_seasons sr = Some n -> 1 <= n).
Proof.
  intros raw. eexists. split; [reflexivity | ].
  match goal with
  | |- context [year_start ?sr] =>
      destruct (series_base_invariants raw sr eq_refl) as (H1 & H2 & _)
  end.
  split; [exact H1 | exact H2].
Defined.

(** X15. [Subtitle(...)] succeeds exactly when the url is given and the
    language is given and is one of the nine listed codes; the format
    defaults to ["srt"] and [is_default] to false. *)
Theorem subtitle_validity (raw : Subtitle_input) (sb : Subtitle) :
  Subtitle_new raw = Valid sb
  <-> in_subtitle_language raw = Some (subtitle_language sb)
      /\ In (subtitle_language sb) valid_languages
      /\ in_subtitle_url raw = Some (subtitle_url sb)
      /\ subtitle_format sb = with_default "srt" (in_subtitle_format raw)
      /\ subtitle_is_default sb
         = with_default false (in_subtitle_is_default raw).
Proof.
  pose proof validate_language_accept as Hlang.
  unfold Subtitle_new. split.
  - intros H. invert_new H. injection H as <-. subst. cbn.
    destruct (in_subtitle_language raw) as [v | ]; [ | discriminate Hx2].
    cbn [required and_then] in Hx2.
    apply located_valid, Hlang in Hx2 as [-> Hin].
    apply required_valid in Hx1. injection Hx0 as <-. injection Hx as <-.
    auto.
  - destruct sb as [l u f d]. cbn. intros (Hl & Hin & Hu & -> & ->).
    rewrite Hl, Hu. cbn [required and_then].
    assert (E : validate_language l = Accept l) by now apply Hlang.
    now rewrite E.
Qed.

Lemma list_of_valid {I A} (new : I -> result A) (field : string)
    (items : list I) :
  forall index out,
    list_of new field index items = Valid out ->
    Forall2 (fun i a => new i = Valid a) items out.
Proof.
  induction items as [ | x items IH]; intros index out H.
  - injection H as <-. constructor.
  - cbn [list_of] in H. invert_new H. injection H as <-. subst.
    constructor; [ | now apply (IH (S index))].
    unfold relocate in Hx0. destruct (new x); [exact Hx0 | discriminate].
Qed.

(** X16. A constructed [WatchResponse] holds one validated source per
    source given and one validated subtitle per subtitle given, in the
    order given; so each of its sources has a url of an accepted shape and
    each of its subtitles a listed language. *)
Theorem watch_response_items_are_validated (raw : WatchResponse_input)
    (w : WatchResponse) :
  WatchResponse_new raw = Valid w ->
  Forall2 (fun i vs => VideoSource_new i = Valid vs)
    (with_default [] (in_video_sources raw)) (video_sources w)
  /\ Forall2 (fun i sb => Subtitle_new i = Valid sb)
       (with_default [] (in_subtitles raw)) (subtitles w)
  /\ Forall (fun vs =>
               Py.startswith_any (url vs) ["http://"; "https://"; "//"]
               = true) (video_sources w)
  /\ Forall (fun sb => In (subtitle_language sb) valid_languages)
       (subtitles w).
Proof.
  unfold WatchResponse_new. intros H. invert_new H. injection H as <-. subst.
  cbn. apply list_of_valid in Hx2, Hx1.
  split; [exact Hx2 | split; [exact Hx1 | split]].
  - clear - Hx2. induction Hx2 as [ | i vs li lv Hi _ IH]; constructor;
      [ | exact IH].
    now apply video_source_new_url in Hi.
  - clear - Hx1. induction Hx1 as [ | i sb li ls Hi _ IH]; constructor;
      [ | exact IH].
    now apply subtitle_new_language in Hi.
Qed.

Lemma watch_response_items_are_validated_witness :
  let source :=
    {| in_url := Some "https://cdn.example/a.mp4"; in_quality := Some "UHD";
       in_type := None; in_size := None; in_bitrate := None;
       in_width := None; in_height := None;
       in_is_direct := None; in_requires_proxy := None |} in
  let sub :=
    {| in_subtitle_language := Some "ar";
       in_subtitle_url := Some "https://cdn.example/a.srt";
       in_subtitle_format := None; in_subtitle_is_default := Some true |} in
  let raw :=
    {| in_content_id := Some "c1"; in_watch_title := Some "A";
       in_watch_type := Some "movie"; in_video_sources := Some [source];
       in_subtitles := Some [sub]; in_next_episode := None;
       in_prev_episode := None |} in
  exists w,
    WatchResponse_new raw = Valid w
    /\ Forall (fun vs =>
                 Py.startswith_any (url vs) ["http://"; "https://"; "//"]
                 = true) (video_sources w)
    /\ Forall (fun sb => In (subtitle_language sb) valid_languages)
         (subtitles w).
Proof.
  intros source sub raw. eexists. split; [reflexivity | ].
  match goal with
  | |- context [video_sources ?w] =>
      destruct (watch_response_items_are_validated raw w eq_refl)
        as (_ & _ & H1 & H2)
  end.
  split; [exact H1 | exact H2].
Defined.

Lemma ap_invalid_r {A B} (f : result (A -> B)) (x : result A)
    (errors : list error) :
  x = Invalid errors -> exists before, f <*> x = Invalid (before ++ errors).
Proof.
  intros ->. destruct f as [g | e1]; cbn; [now exists [] | now exists e1].
Qed.

(** Once a field has failed, its errors stay at the front. *)
Lemma ap_keeps_errors {A B} (f : result (A -> B)) (x : result A)
    (errors : list error) :
  (exists rest, f = Invalid (errors ++ rest)) ->
  exists rest, f <*> x = Invalid (errors ++ rest).
Proof.
  intros [rest ->]. destruct x as [a | e2]; cbn; [eauto | ].
  exists (rest ++ e2)%list. now rewrite app_assoc.
Qed.

(** The errors of a failing item are all reported, under its index. *)
Lemma list_of_invalid {I A} (new : I -> result A) (field : string)
    (items : list I) :
  forall (index k : nat) (i : I) (errors : list error),
    nth_error items k = Some i ->
    new i = Invalid errors ->
    exists all,
      list_of new field index items = Invalid all
      /\ forall e, In e errors ->
           In (Error ((field ++ " -> " ++ Py.str_of_int (Z.of_nat (index + k)))
                      ++ " -> " ++ loc e) (msg e)) all.
Proof.
  induction items as [ | x items IH]; intros index k i errors Hk Hi;
    [destruct k; discriminate | ].
  cbn [list_of]. destruct k as [ | k]; cbn in Hk.
  - injection Hk as ->. rewrite Hi. cbn [relocate ap]. rewrite Nat.add_0_r.
    destruct (list_of new field (S index) items) as [out | e2]; cbn [ap];
      (eexists; split; [reflexivity | ]); intros e He;
      [ | apply in_or_app; left ];
      apply (in_map (fun e => Error _ (msg e)) errors e He).
  - destruct (IH (S index) k i errors Hk Hi) as (all & Hall & Hin).
    rewrite Hall.
    replace (index + S k)%nat with (S index + k)%nat by lia.
    destruct (relocate _ (new x)) as [a | e1]; cbn [ap];
      (eexists; split; [reflexivity | ]); intros e He;
      [ | apply in_or_app; right ]; now apply Hin.
Qed.

(** X17. When one of the sources given to [WatchResponse(...)] fails to
    construct, the whole construction fails, and each error of that source
    is reported under ["video_sources -> <index> -> <field>"]. *)
Theorem watch_response_reports_bad_source (raw : WatchResponse_input)
    (items : list VideoSource_input) (k : nat) (i : VideoSource_input)
    (errors : list error) :
  in_video_sources raw = Some items ->
  nth_error items k = Some i ->
  VideoSource_new i = Invalid errors ->
  exists all,
    WatchResponse_new raw = Invalid all
    /\ forall e, In e errors ->
         In (Error ("video_sources -> " ++ Py.str_of_int (Z.of_nat k)
                    ++ " -> " ++ loc e) (msg e)) all.
Proof.
  intros Hitems Hk Hi. unfold WatchResponse_new. rewrite Hitems.
  cbn [with_default].
  destruct (list_of_invalid VideoSource_new "video_sources" items 0 k i errors
              Hk Hi) as (all & Hall & Hin).
  rewrite Hall. cbn [Nat.add] in Hin.
  destruct (required "content_id" _), (required "title" _),
           (and_then (required "type" _) _),
           (list_of Subtitle_new "subtitles" 0 _); cbn [ap];
    (eexists; split; [reflexivity | ]); intros e He;
    specialize (Hin e He);
    rewrite !JsonFacts.string_app_assoc in Hin;
    rewrite ?in_app_iff; tauto.
Qed.

Lemma watch_response_reports_bad_source_witness :
  let good :=
    {| in_url := Some "//cdn.example/a.mp4"; in_quality := None;
       in_type := None; in_size := None; in_bitrate := None;
       in_width := None; in_height := None;
       in_is_direct := None; in_requires_proxy := None |} in
  let bad :=
    {| in_url := Some "rtmp://cdn.example/a"; in_quality := None;
       in_type := None; in_size := None; in_bitrate := None;
       in_width := None; in_height := None;
       in_is_direct := None; in_requires_proxy := None |} in
  let raw :=
    {| in_content_id := Some "c1"; in_watch_title := Some "A";
       in_watch_type := Some "movie"; in_video_sources := Some [good; bad];
       in_subtitles := None; in_next_episode := None;
       in_prev_episode := None |} in
  exists all,
    WatchResponse_new raw = Invalid all
    /\ In (Error "video_sources -> 1 -> url" "Invalid URL format") all.
Proof.
  intros good bad raw.
  destruct (watch_response_reports_bad_source raw [good; bad] 1 bad
              [Error "url" "Invalid URL format"] eq_refl eq_refl eq_refl)
    as (all & Hall & Hin).
  exists all. split; [exact Hall | ].
  apply (Hin (Error "url" "Invalid URL format")). now left.
Defined.

(** X18. [MovieResponse] inherits the checks of [MovieBase]: when the
    base arguments fail for [MovieBase], [MovieResponse(...)] fails with
    those errors first; when it succeeds, its base part is the
    [MovieBase] instance of the base arguments, [source_url] was given,
    and [views] defaults to 0. *)
Theorem movie_response_inherits_movie_checks (current_year now : Z)
    (raw : MovieResponse_input) :
  match MovieBase_new current_year
          (in_create_base (in_response_create raw)) with
  | Invalid errors =>
      exists rest,
        MovieResponse_new current_year now raw = Invalid (errors ++ rest)
  | Valid base =>
      forall m,
        MovieResponse_new current_year now raw = Valid m ->
        create_base (response_create m) = base
        /\ in_source_url raw = Some (source_url m)
        /\ views m = with_default 0 (in_views raw)
  end.
Proof.
  destruct (MovieBase_new current_year _) as [base | errors] eqn:Eb.
  - intros m H. unfold MovieResponse_new in H. invert_new H.
    injection H as <-. subst. cbn.
    apply required_valid in Hx. injection Hx0 as <-.
    unfold MovieCreate_new in Hx3. invert_new Hx3. injection Hx3 as <-.
    subst. cbn. split; [congruence | auto].
  - assert (Hc : exists rest,
              MovieCreate_new current_year (in_response_create raw)
              = Invalid (errors ++ rest)).
    { unfold MovieCreate_new. rewrite Eb. do 9 apply ap_keeps_errors.
      exists []. cbn [ap]. now rewrite app_nil_r. }
    destruct Hc as [rest Hc]. unfold MovieResponse_new. rewrite Hc.
    do 4 apply ap_keeps_errors. now exists rest.
Qed.

End ModelExtras.
